(** * FinancialRecommendationFHE: a shallow embedding of the contract

    The contract [src/contracts/FinancialRecommendationFHE.sol] is embedded
    as a state-transition system.  Storage is a record of counters and
    mappings, every public function is a function from the storage to a
    [Result], and a reverted call leaves the storage as it was.

    The FHE library of the [import] lines is not part of the repository.
    Its three entry points that the contract relies on are taken as follows:
    - [FHE.checkSignatures] and [FHE.asEuint32] are section variables: the
      verdict of the first and the handle made by the second are functions
      of the arguments of the call;
    - [FHE.requestDecryption] is taken to return, and the request id it
      returns is an argument of the two requesting functions (the id is
      chosen by the library, not by the contract);
    - [FHE.toBytes32] unwraps a handle, and a handle is a [bytes32] word.

    The last part embeds the values that the dashboard of
    [src/frontend/web/src/App.tsx] derives from its product list. *)

From Stdlib Require Import ZArith Lia Sorted.
From Stdlib.Strings Require Import Byte.
From stdpp Require Import gmap list strings.

Local Open Scope Z_scope.

(** ** Machine integers and reverts *)

(** [type(uint32).max] and [type(uint256).max], that is [2^32 - 1] and
    [2^256 - 1]. *)
Definition MAX_UINT32 : Z := 4294967295.
Definition MAX_UINT256 : Z :=
  115792089237316195423570985008687907853269984665640564039457584007913129639935.

Definition is_uint32 (x : Z) : Prop := 0 <= x <= MAX_UINT32.

(** The ways a call of the contract reverts.  [InvalidRequest] is
    [require(..., "Invalid request")], [AlreadyDecrypted] is
    [require(..., "Already decrypted")], [InvalidSignatures] is a revert
    inside [FHE.checkSignatures], [DecodeFailure] a revert of [abi.decode],
    and [Panic] the checked arithmetic of Solidity 0.8 (code 0x11 on
    overflow, 0x12 on division by zero). *)
Inductive Error : Type :=
| InvalidRequest
| AlreadyDecrypted
| InvalidSignatures
| DecodeFailure
| Panic (code : Z).

Inductive Result (A : Type) : Type :=
| Ok (a : A)
| Err (e : Error).
Arguments Ok {A} a.
Arguments Err {A} e.

#[global] Instance Result_bind : MBind Result :=
  fun A B f r => match r with Ok a => f a | Err e => Err e end.

Definition require (b : bool) (e : Error) : Result unit :=
  if b then Ok tt else Err e.

Definition checked_add (max a b : Z) : Result Z :=
  if a + b <=? max then Ok (a + b) else Err (Panic 17).
Definition checked_mul (max a b : Z) : Result Z :=
  if a * b <=? max then Ok (a * b) else Err (Panic 17).
Definition checked_div (a b : Z) : Result Z :=
  if b =? 0 then Err (Panic 18) else Ok (a / b).

(** ** ABI decoding of the cleartexts *)

Definition be_to_Z (bs : list byte) : Z :=
  fold_left (fun acc b => acc * 256 + Z.of_N (Byte.to_N b)) bs 0.

(** The [i]-th 32-byte head slot of [bs]. *)
Definition abi_word (bs : list byte) (i : nat) : list byte :=
  take 32 (drop (32 * i) bs).

(** [abi.decode(bs, (uint32, ..., uint32))] with [n] components: reverts when
    [bs] is shorter than [n] slots or when a slot does not fit [uint32];
    bytes after the last slot are ignored. *)
Definition abi_decode_uint32s (n : nat) (bs : list byte) : Result (list Z) :=
  require (Nat.leb (32 * n) (length bs)) DecodeFailure;;
  let ws := map (fun i => be_to_Z (abi_word bs i)) (seq 0 n) in
  require (forallb (fun w => w <=? MAX_UINT32) ws) DecodeFailure;;
  Ok ws.

(** The encoding the oracle uses for a tuple of unsigned values (only used
    to build concrete callbacks). *)
Definition byte_of_Z (x : Z) : byte :=
  match Byte.of_N (Z.to_N (x mod 256)) with Some b => b | None => Byte.x00 end.

Definition abi_encode_word (w : Z) : list byte :=
  map (fun i => byte_of_Z (w / 256 ^ (31 - Z.of_nat i))) (seq 0 32).

Definition abi_encode (ws : list Z) : list byte :=
  concat (map abi_encode_word ws).

(** ** Storage *)

(** [euint32] is a [bytes32] handle. *)
Definition euint32 : Type := Z.
Definition toBytes32 (h : euint32) : Z := h.

Record EncryptedProfile : Type := {
  profileId : Z;
  encryptedIncome : euint32;
  encryptedAssets : euint32;
  encryptedRiskTolerance : euint32;
  encryptedGoals : euint32;
  timestamp : Z
}.

Record EncryptedRecommendation : Type := {
  recommendationId : Z;
  encryptedProductId : euint32;
  encryptedMatchScore : euint32;
  rec_profileId : Z;
  generatedAt : Z
}.

Record DecryptedResult : Type := {
  productId : Z;
  matchScore : Z;
  isRevealed : bool
}.

(** The value a Solidity mapping holds at a key never written. *)
Definition zeroProfile : EncryptedProfile :=
  {| profileId := 0; encryptedIncome := 0; encryptedAssets := 0;
     encryptedRiskTolerance := 0; encryptedGoals := 0; timestamp := 0 |}.
Definition zeroRecommendation : EncryptedRecommendation :=
  {| recommendationId := 0; encryptedProductId := 0; encryptedMatchScore := 0;
     rec_profileId := 0; generatedAt := 0 |}.
Definition zeroResult : DecryptedResult :=
  {| productId := 0; matchScore := 0; isRevealed := false |}.

Record State : Type := {
  profileCount : Z;
  recommendationCount : Z;
  encryptedProfiles : gmap Z EncryptedProfile;
  encryptedRecommendations : gmap Z EncryptedRecommendation;
  decryptedResults : gmap Z DecryptedResult;
  requestToProfileId : gmap Z Z;
  recommendationRequestToId : gmap Z Z
}.

(** Reading a mapping: the stored value, or the zero value. *)
Definition mread {V : Type} (zero : V) (m : gmap Z V) (k : Z) : V :=
  default zero (m !! k).

(** The storage of a freshly deployed contract. *)
Definition initial : State :=
  {| profileCount := 0; recommendationCount := 0;
     encryptedProfiles := ∅; encryptedRecommendations := ∅;
     decryptedResults := ∅; requestToProfileId := ∅;
     recommendationRequestToId := ∅ |}.

(** ** What a call emits *)

Inductive Selector : Type :=
| generateRecommendation_selector
| decryptRecommendation_selector.

(** The four Solidity events, and the outbound call
    [FHE.requestDecryption(ciphertexts, selector)] with the id it returned. *)
Inductive Effect : Type :=
| ProfileSubmitted (profileId timestamp : Z)
| RecommendationRequested (requestId profileId : Z)
| RecommendationGenerated (recommendationId : Z)
| ResultDecrypted (recommendationId : Z)
| RequestDecryption (ciphertexts : list Z) (callback : Selector) (reqId : Z).

(** ** The demo scoring helpers *)

Definition determineProductId (income assets riskScore goals : Z) : Z :=
  if (riskScore >? 70) && (assets >? 500000) then 3
  else if (income >? 100000) && (goals =? 2) then 2
  else 1.

Definition calculateMatchScore (income assets riskScore goals : Z) : Result Z :=
  a ← checked_div income 10000;
  b ← checked_div assets 100000;
  s1 ← checked_add MAX_UINT32 a b;
  s2 ← checked_add MAX_UINT32 s1 riskScore;
  g ← checked_mul MAX_UINT32 goals 10;
  score ← checked_add MAX_UINT32 s2 g;
  Ok (if score >? 100 then 100 else score).

(** The two helper calls of [generateRecommendation], in the order of the
    source: the [compute] of the specification. *)
Definition compute (income assets riskScore goals : Z) : Result (Z * Z) :=
  let productId := determineProductId income assets riskScore goals in
  matchScore ← calculateMatchScore income assets riskScore goals;
  Ok (productId, matchScore).

(** The scoring policy in the words of the specification. *)
Definition spec_productId (income assets riskScore goals : Z) : Z :=
  if decide (riskScore > 70 ∧ assets > 500000) then 3
  else if decide (income > 100000 ∧ goals = 2) then 2
  else 1.

Definition spec_scoreSum (income assets riskScore goals : Z) : Z :=
  income / 10000 + assets / 100000 + riskScore + goals * 10.

Definition spec_matchScore (income assets riskScore goals : Z) : Z :=
  Z.min (spec_scoreSum income assets riskScore goals) 100.

(** ** The public functions *)

Section Contract.

(** [FHE.checkSignatures(requestId, cleartexts, proof)]: [true] when the
    library returns, [false] when it reverts. *)
Variable checkSignatures : Z -> list byte -> list byte -> bool.
(** [FHE.asEuint32(v)]: the handle of the trivial encryption of [v]. *)
Variable asEuint32 : Z -> euint32.

Definition submitEncryptedProfile (now : Z) (st : State)
    (income assets riskTolerance goals : euint32)
    : Result (State * list Effect) :=
  newProfileId ← checked_add MAX_UINT256 (profileCount st) 1;
  let p := {| profileId := newProfileId;
              encryptedIncome := income;
              encryptedAssets := assets;
              encryptedRiskTolerance := riskTolerance;
              encryptedGoals := goals;
              timestamp := now |} in
  Ok ({| profileCount := newProfileId;
         recommendationCount := recommendationCount st;
         encryptedProfiles := <[newProfileId := p]> (encryptedProfiles st);
         encryptedRecommendations := encryptedRecommendations st;
         decryptedResults := decryptedResults st;
         requestToProfileId := requestToProfileId st;
         recommendationRequestToId := recommendationRequestToId st |},
      [ProfileSubmitted newProfileId now]).

Definition requestFinancialRecommendation (st : State)
    (profileId reqId : Z) : Result (State * list Effect) :=
  let profile := mread zeroProfile (encryptedProfiles st) profileId in
  let ciphertexts :=
    [toBytes32 (encryptedIncome profile);
     toBytes32 (encryptedAssets profile);
     toBytes32 (encryptedRiskTolerance profile);
     toBytes32 (encryptedGoals profile)] in
  Ok ({| profileCount := profileCount st;
         recommendationCount := recommendationCount st;
         encryptedProfiles := encryptedProfiles st;
         encryptedRecommendations := encryptedRecommendations st;
         decryptedResults := decryptedResults st;
         requestToProfileId := <[reqId := profileId]> (requestToProfileId st);
         recommendationRequestToId := recommendationRequestToId st |},
      [RequestDecryption ciphertexts generateRecommendation_selector reqId;
       RecommendationRequested reqId profileId]).

Definition generateRecommendation (now : Z) (st : State)
    (requestId : Z) (cleartexts proof : list byte)
    : Result (State * list Effect) :=
  let profileId := mread 0 (requestToProfileId st) requestId in
  require (negb (profileId =? 0)) InvalidRequest;;
  require (checkSignatures requestId cleartexts proof) InvalidSignatures;;
  ws ← abi_decode_uint32s 4 cleartexts;
  match ws with
  | [income; assets; riskScore; goals] =>
      newRecommendationId ← checked_add MAX_UINT256 (recommendationCount st) 1;
      let productId := determineProductId income assets riskScore goals in
      matchScore ← calculateMatchScore income assets riskScore goals;
      let r := {| recommendationId := newRecommendationId;
                  encryptedProductId := asEuint32 productId;
                  encryptedMatchScore := asEuint32 matchScore;
                  rec_profileId := profileId;
                  generatedAt := now |} in
      let d := {| productId := productId;
                  matchScore := matchScore;
                  isRevealed := false |} in
      Ok ({| profileCount := profileCount st;
             recommendationCount := newRecommendationId;
             encryptedProfiles := encryptedProfiles st;
             encryptedRecommendations :=
               <[newRecommendationId := r]> (encryptedRecommendations st);
             decryptedResults :=
               <[newRecommendationId := d]> (decryptedResults st);
             requestToProfileId := requestToProfileId st;
             recommendationRequestToId := recommendationRequestToId st |},
          [RecommendationGenerated newRecommendationId])
  | _ => Err DecodeFailure
  end.

Definition requestRecommendationDecryption (st : State)
    (recommendationId reqId : Z) : Result (State * list Effect) :=
  let rec := mread zeroRecommendation (encryptedRecommendations st)
               recommendationId in
  require (negb (isRevealed (mread zeroResult (decryptedResults st)
                               recommendationId))) AlreadyDecrypted;;
  let ciphertexts :=
    [toBytes32 (encryptedProductId rec);
     toBytes32 (encryptedMatchScore rec)] in
  Ok ({| profileCount := profileCount st;
         recommendationCount := recommendationCount st;
         encryptedProfiles := encryptedProfiles st;
         encryptedRecommendations := encryptedRecommendations st;
         decryptedResults := decryptedResults st;
         requestToProfileId := requestToProfileId st;
         recommendationRequestToId :=
           <[reqId := recommendationId]> (recommendationRequestToId st) |},
      [RequestDecryption ciphertexts decryptRecommendation_selector reqId]).

Definition decryptRecommendation (st : State)
    (requestId : Z) (cleartexts proof : list byte)
    : Result (State * list Effect) :=
  let recommendationId := mread 0 (recommendationRequestToId st) requestId in
  require (negb (recommendationId =? 0)) InvalidRequest;;
  let dResult := mread zeroResult (decryptedResults st) recommendationId in
  require (negb (isRevealed dResult)) AlreadyDecrypted;;
  require (checkSignatures requestId cleartexts proof) InvalidSignatures;;
  ws ← abi_decode_uint32s 2 cleartexts;
  match ws with
  | [productId; matchScore] =>
      let d := {| productId := productId;
                  matchScore := matchScore;
                  isRevealed := true |} in
      Ok ({| profileCount := profileCount st;
             recommendationCount := recommendationCount st;
             encryptedProfiles := encryptedProfiles st;
             encryptedRecommendations := encryptedRecommendations st;
             decryptedResults := <[recommendationId := d]> (decryptedResults st);
             requestToProfileId := requestToProfileId st;
             recommendationRequestToId := recommendationRequestToId st |},
          [ResultDecrypted recommendationId])
  | _ => Err DecodeFailure
  end.

(** *** The views *)

Definition getDecryptedResult (st : State) (recommendationId : Z)
    : Z * Z * bool :=
  let r := mread zeroResult (decryptedResults st) recommendationId in
  (productId r, matchScore r, isRevealed r).

Definition getEncryptedProfile (st : State) (profileId : Z)
    : euint32 * euint32 * euint32 * euint32 * Z :=
  let p := mread zeroProfile (encryptedProfiles st) profileId in
  (encryptedIncome p, encryptedAssets p, encryptedRiskTolerance p,
   encryptedGoals p, timestamp p).

Definition getEncryptedRecommendation (st : State) (recommendationId : Z)
    : euint32 * euint32 * Z * Z :=
  let r := mread zeroRecommendation (encryptedRecommendations st)
             recommendationId in
  (encryptedProductId r, encryptedMatchScore r, rec_profileId r,
   generatedAt r).

(** *** Transactions *)

Inductive Call : Type :=
| SubmitEncryptedProfile (income assets riskTolerance goals : euint32)
| RequestFinancialRecommendation (profileId reqId : Z)
| GenerateRecommendation (requestId : Z) (cleartexts proof : list byte)
| RequestRecommendationDecryption (recommendationId reqId : Z)
| DecryptRecommendation (requestId : Z) (cleartexts proof : list byte).

Definition dispatch (now : Z) (st : State) (c : Call)
    : Result (State * list Effect) :=
  match c with
  | SubmitEncryptedProfile i a r g => submitEncryptedProfile now st i a r g
  | RequestFinancialRecommendation p q => requestFinancialRecommendation st p q
  | GenerateRecommendation q ct pf => generateRecommendation now st q ct pf
  | RequestRecommendationDecryption r q =>
      requestRecommendationDecryption st r q
  | DecryptRecommendation q ct pf => decryptRecommendation st q ct pf
  end.

(** A transaction: a reverted call changes nothing and emits nothing. *)
Definition exec (now : Z) (st : State) (c : Call) : State * list Effect :=
  match dispatch now st c with
  | Ok r => r
  | Err _ => (st, [])
  end.

(** A sequence of transactions, each with its block timestamp; the result
    is the final storage and everything emitted, in order. *)
Fixpoint run (st : State) (txs : list (Z * Call)) : State * list Effect :=
  match txs with
  | [] => (st, [])
  | (now, c) :: rest =>
      let '(st1, out1) := exec now st c in
      let '(st2, out2) := run st1 rest in
      (st2, out1 ++ out2)
  end.

End Contract.

(** ** Observations on storage and on what was emitted *)

(** The [isRevealed] flag of the result stored for a recommendation id. *)
Definition revealed (st : State) (id : Z) : bool :=
  isRevealed (mread zeroResult (decryptedResults st) id).

(** The ids carried by the [ProfileSubmitted] events of a log, in order. *)
Fixpoint submittedIds (out : list Effect) : list Z :=
  match out with
  | [] => []
  | ProfileSubmitted id _ :: rest => id :: submittedIds rest
  | _ :: rest => submittedIds rest
  end.

(** The ids carried by the [RecommendationGenerated] events, in order. *)
Fixpoint generatedIds (out : list Effect) : list Z :=
  match out with
  | [] => []
  | RecommendationGenerated id :: rest => id :: generatedIds rest
  | _ :: rest => generatedIds rest
  end.

(** The [isRevealed] flag of [id] before the first transaction and after
    each one. *)
Fixpoint revealHistory (checkSignatures : Z -> list byte -> list byte -> bool)
    (asEuint32 : Z -> euint32) (st : State) (txs : list (Z * Call)) (id : Z)
    : list bool :=
  revealed st id ::
  match txs with
  | [] => []
  | (now, c) :: rest =>
      revealHistory checkSignatures asEuint32
        (fst (exec checkSignatures asEuint32 now st c)) rest id
  end.

(** The number of steps from [false] to [true] in a history, and from
    [true] to [false]. *)
Fixpoint rises (l : list bool) : nat :=
  match l with
  | a :: (b :: _) as rest => ((if negb a && b then 1 else 0) + rises rest)%nat
  | _ => 0%nat
  end.

Fixpoint falls (l : list bool) : nat :=
  match l with
  | a :: (b :: _) as rest => ((if a && negb b then 1 else 0) + falls rest)%nat
  | _ => 0%nat
  end.

(** ** A concrete oracle for the worked scenarios

    It signs with the one-byte proof [0x01]: [checkSignatures] returns for
    that proof and reverts for every other.  The trivial encryption of [v]
    has handle [4096 + v]. *)
Definition demo_checkSignatures (requestId : Z) (cleartexts proof : list byte)
    : bool :=
  match proof with
  | [b] => Byte.eqb b Byte.x01
  | _ => false
  end.

Definition demo_asEuint32 (v : Z) : euint32 := 4096 + v.

Definition good_proof : list byte := [Byte.x01].
Definition bad_proof : list byte := [Byte.x00].

Definition demo_exec : Z -> State -> Call -> State * list Effect :=
  exec demo_checkSignatures demo_asEuint32.
Definition demo_run : State -> list (Z * Call) -> State * list Effect :=
  run demo_checkSignatures demo_asEuint32.

(** Cleartexts of two decrypted profiles, and of one decrypted result. *)
Definition profileA : list byte := abi_encode [50000; 600000; 80; 1].
Definition profileB : list byte := abi_encode [10000; 1000; 5; 0].
Definition resultA : list byte := abi_encode [3; 100].

(** One profile is submitted, a recommendation is requested for it under
    request id 7, and the oracle answers with [cleartexts]. *)
Definition generated_with (cleartexts : list byte) : list (Z * Call) :=
  [(100, SubmitEncryptedProfile 11 12 13 14);
   (101, RequestFinancialRecommendation 1 7);
   (102, GenerateRecommendation 7 cleartexts good_proof)].

(** Then the reveal of recommendation 1 is requested twice, under request
    ids 8 and 9. *)
Definition reveal_requested : list (Z * Call) :=
  generated_with profileA ++
  [(103, RequestRecommendationDecryption 1 8);
   (104, RequestRecommendationDecryption 1 9)].

(** Then the oracle answers request 8. *)
Definition revealed_once : list (Z * Call) :=
  reveal_requested ++ [(105, DecryptRecommendation 8 resultA good_proof)].

(** The same profile requested twice before any answer. *)
Definition requested_twice : list (Z * Call) :=
  [(100, SubmitEncryptedProfile 11 12 13 14);
   (101, RequestFinancialRecommendation 1 7);
   (102, RequestFinancialRecommendation 1 8)].

(** What may follow a created recommendation: its reveal is requested and
    answered, the answer and the profile callback are delivered again, and a
    reveal is requested once more. *)
Definition after_generation : list (Z * Call) :=
  [(103, RequestRecommendationDecryption 1 8);
   (104, RequestRecommendationDecryption 1 9);
   (105, DecryptRecommendation 8 resultA good_proof);
   (106, DecryptRecommendation 9 resultA good_proof);
   (107, GenerateRecommendation 7 profileB good_proof);
   (108, DecryptRecommendation 8 resultA good_proof);
   (109, RequestRecommendationDecryption 1 10)].

(** ** Invariant of the profile registry

    The profile counter is not negative and nothing is stored at id 0 or
    above the counter. *)
Definition profiles_fresh (st : State) : Prop :=
  0 <= profileCount st /\
  forall id, id <= 0 \/ profileCount st < id -> encryptedProfiles st !! id = None.

(** ** Invariants of the two registries

    Both counters are not negative.  Under every id from 1 to the profile
    counter a profile is stored that carries this id, and nothing is stored
    under any other id.  Under every id from 1 to the recommendation counter
    a recommendation is stored that carries this id and a profile id other
    than 0, together with a result record, and no recommendation is stored
    under any other id. *)
Definition registry_dense (st : State) : Prop :=
  0 <= profileCount st /\
  0 <= recommendationCount st /\
  (forall id, 1 <= id <= profileCount st ->
     exists p, encryptedProfiles st !! id = Some p /\ profileId p = id) /\
  (forall id, id <= 0 \/ profileCount st < id ->
     encryptedProfiles st !! id = None) /\
  (forall id, 1 <= id <= recommendationCount st ->
     exists r d,
       encryptedRecommendations st !! id = Some r /\
       recommendationId r = id /\ rec_profileId r <> 0 /\
       decryptedResults st !! id = Some d) /\
  (forall id, id <= 0 \/ recommendationCount st < id ->
     encryptedRecommendations st !! id = None).

(** A result record that is not flagged revealed holds the values whose
    trivial encryptions the recommendation stores, a product id from 1 to 3
    and a match score from 0 to 100. *)
Definition unrevealed_consistent (asEuint32 : Z -> euint32) (st : State)
    : Prop :=
  forall id, 1 <= id <= recommendationCount st ->
    revealed st id = false ->
    exists r d,
      encryptedRecommendations st !! id = Some r /\
      decryptedResults st !! id = Some d /\
      encryptedProductId r = asEuint32 (productId d) /\
      encryptedMatchScore r = asEuint32 (matchScore d) /\
      1 <= productId d <= 3 /\ 0 <= matchScore d <= 100.

(** What the log accounts for: every recorded profile request, the profile
    id of every stored recommendation, and every result flagged revealed. *)
Definition log_accounts (st : State) (log : list Effect) : Prop :=
  (forall q pid, requestToProfileId st !! q = Some pid ->
     In (RecommendationRequested q pid) log) /\
  (forall id r, encryptedRecommendations st !! id = Some r ->
     exists q, In (RecommendationRequested q (rec_profileId r)) log) /\
  (forall id, revealed st id = true -> In (ResultDecrypted id) log).

(** Whether a call is accepted in a storage, that is, does not revert. *)
Definition accepted (checkSignatures : Z -> list byte -> list byte -> bool)
    (asEuint32 : Z -> euint32) (now : Z) (st : State) (c : Call) : bool :=
  match dispatch checkSignatures asEuint32 now st c with
  | Ok _ => true
  | Err _ => false
  end.

Definition is_submission (c : Call) : bool :=
  match c with SubmitEncryptedProfile _ _ _ _ => true | _ => false end.

Definition is_profile_callback (c : Call) : bool :=
  match c with GenerateRecommendation _ _ _ => true | _ => false end.

(** The number of accepted calls of one kind in a sequence of transactions,
    each judged in the storage it is executed in. *)
Fixpoint count_accepted (kind : Call -> bool)
    (checkSignatures : Z -> list byte -> list byte -> bool)
    (asEuint32 : Z -> euint32) (st : State) (txs : list (Z * Call)) : nat :=
  match txs with
  | [] => 0%nat
  | (now, c) :: rest =>
      ((if kind c && accepted checkSignatures asEuint32 now st c
        then 1 else 0)
       + count_accepted kind checkSignatures asEuint32
           (fst (exec checkSignatures asEuint32 now st c)) rest)%nat
  end.

(** The ids [first + 1, ..., first + n]. *)
Definition ids_after (first : Z) (n : nat) : list Z :=
  map (fun k => first + Z.of_nat k) (seq 1 n).

(** * The dashboard of [src/frontend/web/src/App.tsx]

    The derived values of the [App] component that are computed from the
    product list: the three status counts and the pagination.  Arrays are
    lists, array lengths and page numbers are natural numbers. *)
Module Dashboard.

Section Products.

(** A product, with the [status] field of [FinancialProduct] as the string
    that [loadProducts] reads from the stored JSON. *)
Variable FinancialProduct : Type.
Variable status : FinancialProduct -> string.

Definition approvedCount (products : list FinancialProduct) : nat :=
  length (List.filter (fun p => String.eqb (status p) "approved") products).
Definition pendingCount (products : list FinancialProduct) : nat :=
  length (List.filter (fun p => String.eqb (status p) "pending") products).
Definition rejectedCount (products : list FinancialProduct) : nat :=
  length (List.filter (fun p => String.eqb (status p) "rejected") products).

(** The three values of the [status] field's type. *)
Definition known_status (p : FinancialProduct) : Prop :=
  status p = "approved" \/ status p = "pending" \/ status p = "rejected".

End Products.

Definition itemsPerPage : nat := 6.

(** [Math.ceil(n / d)] for an array length [n]. *)
Definition ceil_div (n d : nat) : nat :=
  (n / d + (if Nat.eqb (n mod d) 0 then 0 else 1))%nat.

Definition totalPages {A : Type} (filteredProducts : list A) : nat :=
  ceil_div (length filteredProducts) itemsPerPage.

(** [l.slice(start, stop)] for indices that are not negative: the elements
    from [start] up to, not including, [stop], as far as the array goes. *)
Definition slice {A : Type} (l : list A) (start stop : nat) : list A :=
  take (stop - start) (drop start l).

Definition paginatedProducts {A : Type} (filteredProducts : list A)
    (currentPage : nat) : list A :=
  slice filteredProducts
    ((currentPage - 1) * itemsPerPage) (currentPage * itemsPerPage).

End Dashboard.

(** ** Further scenarios with the concrete oracle *)

(** Two recommendations are created for profile 1 and the reveal of each is
    requested, under request ids 8 and 9. *)
Definition two_reveals_requested : list (Z * Call) :=
  generated_with profileA ++
  [(103, GenerateRecommendation 7 profileB good_proof);
   (104, RequestRecommendationDecryption 1 8);
   (105, RequestRecommendationDecryption 2 9)].

(** The stored recommendation 1 of [generated_with profileA]. *)
Definition recommendation1 : EncryptedRecommendation :=
  {| recommendationId := 1; encryptedProductId := 4099;
     encryptedMatchScore := 4196; rec_profileId := 1; generatedAt := 102 |}.

(** Three products given by their status alone, one with a status outside
    the type. *)
Definition demo_statuses : list string := ["approved"; "pending"; "archived"].

(** * Properties *)

(** ** The scoring helpers *)

Lemma determineProductId_spec income assets riskScore goals :
  determineProductId income assets riskScore goals
  = spec_productId income assets riskScore goals.
Proof.
  unfold determineProductId, spec_productId.
  repeat case_decide;
    destruct (riskScore >? 70) eqn:E1, (assets >? 500000) eqn:E2,
             (income >? 100000) eqn:E3, (goals =? 2) eqn:E4;
    simpl; try reflexivity; exfalso; lia.
Qed.

Lemma scoreSum_parts income assets riskScore goals :
  is_uint32 income -> is_uint32 assets ->
  is_uint32 riskScore -> is_uint32 goals ->
  0 <= income / 10000 /\ 0 <= assets / 100000 /\ 0 <= riskScore /\ 0 <= goals * 10.
Proof.
  unfold is_uint32. intros Hi Ha Hr Hg.
  repeat split; try lia; apply Z.div_pos; lia.
Qed.

Lemma calculateMatchScore_fits income assets riskScore goals :
  is_uint32 income -> is_uint32 assets ->
  is_uint32 riskScore -> is_uint32 goals ->
  spec_scoreSum income assets riskScore goals <= MAX_UINT32 ->
  calculateMatchScore income assets riskScore goals
  = Ok (spec_matchScore income assets riskScore goals).
Proof.
  intros Hi Ha Hr Hg Hsum.
  destruct (scoreSum_parts _ _ _ _ Hi Ha Hr Hg) as (H1 & H2 & H3 & H4).
  unfold spec_matchScore, spec_scoreSum in *.
  unfold calculateMatchScore, checked_div, checked_add, checked_mul. simpl.
  repeat match goal with
  | |- context [?a <=? ?b] =>
      destruct (Z.leb_spec a b); [simpl | exfalso; lia]
  end.
  f_equal.
  match goal with |- context [?a >? 100] => destruct (Z.gtb_spec a 100) end; lia.
Qed.

Lemma calculateMatchScore_overflows income assets riskScore goals :
  is_uint32 income -> is_uint32 assets ->
  is_uint32 riskScore -> is_uint32 goals ->
  MAX_UINT32 < spec_scoreSum income assets riskScore goals ->
  calculateMatchScore income assets riskScore goals = Err (Panic 17).
Proof.
  intros Hi Ha Hr Hg Hsum.
  destruct (scoreSum_parts _ _ _ _ Hi Ha Hr Hg) as (H1 & H2 & H3 & H4).
  unfold spec_scoreSum in *.
  unfold calculateMatchScore, checked_div, checked_add, checked_mul. simpl.
  repeat match goal with
  | |- context [?a <=? ?b] =>
      destruct (Z.leb_spec a b); simpl; try reflexivity
  end.
  exfalso; lia.
Qed.

(** C3, as stated, fails: with [goals] at the top of [uint32] the product
    [goals * 10] leaves [uint32] and the call reverts instead of returning
    a score of 100. *)
Lemma compute_max_goals_reverts :
  is_uint32 4294967295 /\
  spec_matchScore 0 0 0 4294967295 = 100 /\
  compute 0 0 0 4294967295 = Err (Panic 17).
Proof. unfold is_uint32. repeat split; vm_compute; congruence. Qed.

(** C3 (amended): for [uint32] inputs, [determineProductId] is the product
    rule of the specification; when the score sum fits [uint32], [compute]
    returns that product id with the sum clamped at 100; and the three
    scenarios of the specification evaluate as written. *)
Theorem compute_spec income assets riskScore goals :
  is_uint32 income -> is_uint32 assets ->
  is_uint32 riskScore -> is_uint32 goals ->
  determineProductId income assets riskScore goals
  = spec_productId income assets riskScore goals /\
  (spec_scoreSum income assets riskScore goals <= MAX_UINT32 ->
   compute income assets riskScore goals
   = Ok (spec_productId income assets riskScore goals,
         spec_matchScore income assets riskScore goals)) /\
  compute 50000 600000 80 1 = Ok (3, 100) /\
  compute 150000 10000 10 2 = Ok (2, 45) /\
  compute 10000 1000 5 0 = Ok (1, 6).
Proof.
  intros Hi Ha Hr Hg. split; [apply determineProductId_spec |].
  split; [| repeat split; reflexivity].
  intros Hsum. unfold compute.
  rewrite (calculateMatchScore_fits _ _ _ _ Hi Ha Hr Hg Hsum). simpl.
  by rewrite determineProductId_spec.
Qed.

(** The second scenario of the specification. *)
Lemma compute_spec_witness :
  is_uint32 150000 /\ is_uint32 10000 /\ is_uint32 10 /\ is_uint32 2 /\
  spec_scoreSum 150000 10000 10 2 <= MAX_UINT32 /\
  compute 150000 10000 10 2
  = Ok (spec_productId 150000 10000 10 2, spec_matchScore 150000 10000 10 2).
Proof.
  assert (H1 : is_uint32 150000) by (unfold is_uint32; vm_compute; split; congruence).
  assert (H2 : is_uint32 10000) by (unfold is_uint32; vm_compute; split; congruence).
  assert (H3 : is_uint32 10) by (unfold is_uint32; vm_compute; split; congruence).
  assert (H4 : is_uint32 2) by (unfold is_uint32; vm_compute; split; congruence).
  assert (H5 : spec_scoreSum 150000 10000 10 2 <= MAX_UINT32)
    by (vm_compute; congruence).
  repeat (split; [assumption |]).
  exact (proj1 (proj2 (compute_spec 150000 10000 10 2 H1 H2 H3 H4)) H5).
Defined.

(** C4, as stated, fails: [goals = 429496730] is the least value whose
    product with 10 leaves [uint32]; [calculateMatchScore] reverts there. *)
Lemma compute_overflow_reverts :
  is_uint32 429496730 /\ compute 0 0 0 429496730 = Err (Panic 17).
Proof. unfold is_uint32. repeat split; vm_compute; congruence. Qed.

(** C4 (amended): for [uint32] inputs, [determineProductId] always returns,
    and [compute] returns a pair exactly when the score sum
    [income/10000 + assets/100000 + riskScore + goals*10] fits [uint32];
    otherwise the checked arithmetic reverts with the overflow panic. *)
Theorem compute_returns_iff_fits income assets riskScore goals :
  is_uint32 income -> is_uint32 assets ->
  is_uint32 riskScore -> is_uint32 goals ->
  ((exists p m, compute income assets riskScore goals = Ok (p, m))
   <-> spec_scoreSum income assets riskScore goals <= MAX_UINT32) /\
  (MAX_UINT32 < spec_scoreSum income assets riskScore goals ->
   compute income assets riskScore goals = Err (Panic 17)).
Proof.
  intros Hi Ha Hr Hg.
  assert (Hover : MAX_UINT32 < spec_scoreSum income assets riskScore goals ->
                  compute income assets riskScore goals = Err (Panic 17)).
  { intros Hsum. unfold compute.
    by rewrite (calculateMatchScore_overflows _ _ _ _ Hi Ha Hr Hg Hsum). }
  split; [| exact Hover]. split.
  - intros (p & m & Hpm).
    destruct (Z.le_gt_cases (spec_scoreSum income assets riskScore goals)
                MAX_UINT32) as [|Hgt]; [assumption |].
    rewrite (Hover Hgt) in Hpm. discriminate.
  - intros Hsum. unfold compute.
    rewrite (calculateMatchScore_fits _ _ _ _ Hi Ha Hr Hg Hsum). simpl. eauto.
Qed.

(** The first scenario of the specification fits and returns. *)
Lemma compute_returns_iff_fits_witness :
  is_uint32 50000 /\ is_uint32 600000 /\ is_uint32 80 /\ is_uint32 1 /\
  exists p m, compute 50000 600000 80 1 = Ok (p, m).
Proof.
  assert (H1 : is_uint32 50000) by (unfold is_uint32; vm_compute; split; congruence).
  assert (H2 : is_uint32 600000) by (unfold is_uint32; vm_compute; split; congruence).
  assert (H3 : is_uint32 80) by (unfold is_uint32; vm_compute; split; congruence).
  assert (H4 : is_uint32 1) by (unfold is_uint32; vm_compute; split; congruence).
  repeat (split; [assumption |]).
  apply (proj1 (compute_returns_iff_fits 50000 600000 80 1 H1 H2 H3 H4)).
  vm_compute; congruence.
Defined.

(** ** Inversion of the public functions *)

#[local] Arguments calculateMatchScore : simpl never.
#[local] Arguments determineProductId : simpl never.
#[local] Arguments abi_decode_uint32s : simpl never.
#[local] Arguments checked_add : simpl never.
#[local] Arguments require : simpl never.

Ltac split_call H :=
  repeat first
    [ discriminate H
    | match type of H with
      | context [require ?b ?e] =>
          change (require b e) with (if b then Ok tt else Err e) in H;
          destruct b eqn:?; cbn in H
      | context [checked_add ?m ?a ?b] =>
          unfold checked_add in H; destruct (Z.leb_spec (a + b) m); cbn in H
      | context [abi_decode_uint32s ?n ?bs] =>
          destruct (abi_decode_uint32s n bs) as [[|? [|? [|? [|? [|? ?]]]]]|] eqn:?;
          cbn in H
      | context [calculateMatchScore ?i ?a ?r ?g] =>
          destruct (calculateMatchScore i a r g) eqn:?; cbn in H
      end ].

Section Inversion.

Variable checkSignatures : Z -> list byte -> list byte -> bool.
Variable asEuint32 : Z -> euint32.

Lemma submitEncryptedProfile_Ok now st i a r g st' out :
  submitEncryptedProfile now st i a r g = Ok (st', out) ->
  profileCount st + 1 <= MAX_UINT256 /\
  profileCount st' = profileCount st + 1 /\
  recommendationCount st' = recommendationCount st /\
  encryptedProfiles st'
  = <[profileCount st + 1 :=
        {| profileId := profileCount st + 1; encryptedIncome := i;
           encryptedAssets := a; encryptedRiskTolerance := r;
           encryptedGoals := g; timestamp := now |}]> (encryptedProfiles st) /\
  encryptedRecommendations st' = encryptedRecommendations st /\
  decryptedResults st' = decryptedResults st /\
  requestToProfileId st' = requestToProfileId st /\
  recommendationRequestToId st' = recommendationRequestToId st /\
  out = [ProfileSubmitted (profileCount st + 1) now].
Proof.
  unfold submitEncryptedProfile. intros H. cbn in H. split_call H.
  inversion H; subst; clear H. cbn. repeat split; done.
Qed.

Lemma generateRecommendation_Ok now st q ct pf st' out :
  generateRecommendation checkSignatures asEuint32 now st q ct pf = Ok (st', out) ->
  exists income assets riskScore goals score,
    mread 0 (requestToProfileId st) q <> 0 /\
    checkSignatures q ct pf = true /\
    abi_decode_uint32s 4 ct = Ok [income; assets; riskScore; goals] /\
    recommendationCount st + 1 <= MAX_UINT256 /\
    calculateMatchScore income assets riskScore goals = Ok score /\
    profileCount st' = profileCount st /\
    recommendationCount st' = recommendationCount st + 1 /\
    encryptedProfiles st' = encryptedProfiles st /\
    encryptedRecommendations st'
    = <[recommendationCount st + 1 :=
          {| recommendationId := recommendationCount st + 1;
             encryptedProductId :=
               asEuint32 (determineProductId income assets riskScore goals);
             encryptedMatchScore := asEuint32 score;
             rec_profileId := mread 0 (requestToProfileId st) q;
             generatedAt := now |}]> (encryptedRecommendations st) /\
    decryptedResults st'
    = <[recommendationCount st + 1 :=
          {| productId := determineProductId income assets riskScore goals;
             matchScore := score;
             isRevealed := false |}]> (decryptedResults st) /\
    requestToProfileId st' = requestToProfileId st /\
    recommendationRequestToId st' = recommendationRequestToId st /\
    out = [RecommendationGenerated (recommendationCount st + 1)].
Proof.
  unfold generateRecommendation. intros H. cbn in H. split_call H.
  inversion H; subst; clear H. cbn.
  do 5 eexists. repeat split; try done.
  intros E. rewrite E in *. discriminate.
Qed.

Lemma decryptRecommendation_Ok st q ct pf st' out :
  decryptRecommendation checkSignatures st q ct pf = Ok (st', out) ->
  exists p m,
    mread 0 (recommendationRequestToId st) q <> 0 /\
    revealed st (mread 0 (recommendationRequestToId st) q) = false /\
    checkSignatures q ct pf = true /\
    abi_decode_uint32s 2 ct = Ok [p; m] /\
    profileCount st' = profileCount st /\
    recommendationCount st' = recommendationCount st /\
    encryptedProfiles st' = encryptedProfiles st /\
    encryptedRecommendations st' = encryptedRecommendations st /\
    decryptedResults st'
    = <[mread 0 (recommendationRequestToId st) q :=
          {| productId := p; matchScore := m; isRevealed := true |}]>
        (decryptedResults st) /\
    requestToProfileId st' = requestToProfileId st /\
    recommendationRequestToId st' = recommendationRequestToId st /\
    out = [ResultDecrypted (mread 0 (recommendationRequestToId st) q)].
Proof.
  unfold decryptRecommendation. intros H. cbn in H. split_call H.
  inversion H; subst; clear H. cbn.
  do 2 eexists. unfold revealed. repeat split; try done.
  - intros E. rewrite E in *. discriminate.
  - by destruct (isRevealed _).
Qed.

End Inversion.

(** ** One transaction *)

Section Steps.

Variable checkSignatures : Z -> list byte -> list byte -> bool.
Variable asEuint32 : Z -> euint32.

#[local] Abbreviation exec' := (exec checkSignatures asEuint32).
#[local] Abbreviation run' := (run checkSignatures asEuint32).
#[local] Abbreviation dispatch' := (dispatch checkSignatures asEuint32).

Lemma exec_cases now st c :
  (exists e, dispatch' now st c = Err e /\ exec' now st c = (st, [])) \/
  (exists st' out,
     dispatch' now st c = Ok (st', out) /\ exec' now st c = (st', out)).
Proof.
  unfold exec. destruct (dispatch' now st c) as [[st' out]|e]; eauto.
Qed.

Lemma exec_Err now st c e :
  dispatch' now st c = Err e -> exec' now st c = (st, []).
Proof. unfold exec. by intros ->. Qed.

Lemma exec_Ok now st c st' out :
  dispatch' now st c = Ok (st', out) -> exec' now st c = (st', out).
Proof. unfold exec. by intros ->. Qed.

Lemma requestRecommendationDecryption_Ok st id reqId st' out :
  requestRecommendationDecryption st id reqId = Ok (st', out) ->
  revealed st id = false /\
  profileCount st' = profileCount st /\
  recommendationCount st' = recommendationCount st /\
  encryptedProfiles st' = encryptedProfiles st /\
  encryptedRecommendations st' = encryptedRecommendations st /\
  decryptedResults st' = decryptedResults st /\
  requestToProfileId st' = requestToProfileId st /\
  recommendationRequestToId st'
  = <[reqId := id]> (recommendationRequestToId st) /\
  out = [RequestDecryption
           [toBytes32 (encryptedProductId
              (mread zeroRecommendation (encryptedRecommendations st) id));
            toBytes32 (encryptedMatchScore
              (mread zeroRecommendation (encryptedRecommendations st) id))]
           decryptRecommendation_selector reqId].
Proof.
  unfold requestRecommendationDecryption, revealed. intros H. cbn in H.
  split_call H. inversion H; subst; clear H. cbn.
  repeat split; try done. by destruct (isRevealed _).
Qed.

(** The counters never decrease, and a transaction emits a
    [ProfileSubmitted] (a [RecommendationGenerated]) exactly when it moves
    the profile (recommendation) counter, by one, to the emitted id. *)
Lemma exec_counters now st c :
  let st' := fst (exec' now st c) in
  let out := snd (exec' now st c) in
  ((profileCount st' = profileCount st /\ submittedIds out = []) \/
   (profileCount st' = profileCount st + 1 /\
    submittedIds out = [profileCount st + 1])) /\
  ((recommendationCount st' = recommendationCount st /\ generatedIds out = []) \/
   (recommendationCount st' = recommendationCount st + 1 /\
    generatedIds out = [recommendationCount st + 1])).
Proof.
  destruct (exec_cases now st c) as [(e & _ & ->)|(st' & out & Hd & ->)];
    cbn; [by auto |].
  destruct c; cbn in Hd.
  - apply submitEncryptedProfile_Ok in Hd.
    destruct Hd as (_ & -> & -> & _ & _ & _ & _ & _ & ->). cbn. auto.
  - inversion Hd; subst; cbn. auto.
  - apply generateRecommendation_Ok in Hd.
    destruct Hd as (? & ? & ? & ? & ? & _ & _ & _ & _ & _ & -> & -> & _ & _
                    & _ & _ & _ & ->).
    cbn. auto.
  - apply requestRecommendationDecryption_Ok in Hd.
    destruct Hd as (_ & -> & -> & _ & _ & _ & _ & _ & ->). cbn. auto.
  - apply decryptRecommendation_Ok in Hd.
    destruct Hd as (? & ? & _ & _ & _ & _ & -> & -> & _ & _ & _ & _ & _ & ->).
    cbn. auto.
Qed.

(** ** Sequences of transactions: identifiers *)

Lemma submittedIds_app out1 out2 :
  submittedIds (out1 ++ out2) = submittedIds out1 ++ submittedIds out2.
Proof.
  induction out1 as [|[] out1 IH]; cbn; [done | | | | |]; by rewrite ?IH.
Qed.

Lemma generatedIds_app out1 out2 :
  generatedIds (out1 ++ out2) = generatedIds out1 ++ generatedIds out2.
Proof.
  induction out1 as [|[] out1 IH]; cbn; [done | | | | |]; by rewrite ?IH.
Qed.

Lemma run_cons st now c rest :
  run' st ((now, c) :: rest)
  = (fst (run' (fst (exec' now st c)) rest),
     snd (exec' now st c) ++ snd (run' (fst (exec' now st c)) rest)).
Proof.
  cbn. destruct (exec' now st c) as [st1 out1]. cbn.
  by destruct (run' st1 rest).
Qed.

(** Ids that increase strictly are pairwise distinct. *)
Lemma StronglySorted_lt_NoDup (l : list Z) :
  StronglySorted Z.lt l -> NoDup l.
Proof.
  induction 1 as [|x l Hs IH Hall]; constructor; [| exact IH].
  intros Hin. rewrite Forall_forall in Hall.
  specialize (Hall x Hin). lia.
Qed.

(** From any storage, the ids a sequence of transactions assigns lie above
    the counter it started from, at most at the counter it ends with, and
    increase strictly. *)
Lemma run_ids txs : forall st,
  let st' := fst (run' st txs) in
  let out := snd (run' st txs) in
  (profileCount st <= profileCount st' /\
   Forall (fun id => profileCount st < id <= profileCount st') (submittedIds out) /\
   StronglySorted Z.lt (submittedIds out)) /\
  (recommendationCount st <= recommendationCount st' /\
   Forall (fun id => recommendationCount st < id <= recommendationCount st')
     (generatedIds out) /\
   StronglySorted Z.lt (generatedIds out)).
Proof.
  induction txs as [|[now c] rest IH]; intros st.
  - cbn. repeat split; try lia; constructor.
  - rewrite run_cons. cbn [fst snd].
    rewrite submittedIds_app, generatedIds_app.
    specialize (IH (fst (exec' now st c))).
    destruct IH as [(Hp & Hpa & Hps) (Hr & Hra & Hrs)].
    destruct (exec_counters now st c) as [Hpc Hrc].
    split.
    + destruct Hpc as [[Hpc ->]|[Hpc ->]]; cbn [app]; rewrite Hpc in *.
      * repeat split; [lia | | done].
        eapply Forall_impl; [exact Hpa |]. cbn. intros; lia.
      * repeat split; [lia | |].
        -- constructor; [lia |].
           eapply Forall_impl; [exact Hpa |]. cbn. intros; lia.
        -- constructor; [done |].
           eapply Forall_impl; [exact Hpa |]. cbn. intros; lia.
    + destruct Hrc as [[Hrc ->]|[Hrc ->]]; cbn [app]; rewrite Hrc in *.
      * repeat split; [lia | | done].
        eapply Forall_impl; [exact Hra |]. cbn. intros; lia.
      * repeat split; [lia | |].
        -- constructor; [lia |].
           eapply Forall_impl; [exact Hra |]. cbn. intros; lia.
        -- constructor; [done |].
           eapply Forall_impl; [exact Hra |]. cbn. intros; lia.
Qed.

(** C6: over every sequence of transactions, from every storage, the profile
    ids assigned by the submissions increase strictly, are pairwise distinct
    and exceed the counter the sequence started from; the same holds of the
    recommendation ids assigned by the accepted profile callbacks; and
    neither counter ever decreases. *)
Theorem ids_strictly_increasing st txs :
  let st' := fst (run' st txs) in
  let out := snd (run' st txs) in
  (StronglySorted Z.lt (submittedIds out) /\
   NoDup (submittedIds out) /\
   Forall (fun id => profileCount st < id) (submittedIds out) /\
   profileCount st <= profileCount st') /\
  (StronglySorted Z.lt (generatedIds out) /\
   NoDup (generatedIds out) /\
   Forall (fun id => recommendationCount st < id) (generatedIds out) /\
   recommendationCount st <= recommendationCount st').
Proof.
  destruct (run_ids txs st) as [(Hp & Hpa & Hps) (Hr & Hra & Hrs)].
  cbn zeta. split.
  - repeat split; [done | by apply StronglySorted_lt_NoDup | | done].
    eapply Forall_impl; [exact Hpa |]. cbn. intros; lia.
  - repeat split; [done | by apply StronglySorted_lt_NoDup | | done].
    eapply Forall_impl; [exact Hra |]. cbn. intros; lia.
Qed.

(** ** Sequences of transactions: the reveal flag *)

Lemma mread_insert {V} (zero : V) (m : gmap Z V) (k k' : Z) (v : V) :
  mread zero (<[k := v]> m) k' = if decide (k = k') then v else mread zero m k'.
Proof.
  unfold mread. rewrite lookup_insert. by case_decide.
Qed.

Lemma mread_insert_eq {V} (zero : V) (m : gmap Z V) (k : Z) (v : V) :
  mread zero (<[k := v]> m) k = v.
Proof. rewrite mread_insert. by case_decide. Qed.

Lemma mread_insert_ne {V} (zero : V) (m : gmap Z V) (k k' : Z) (v : V) :
  k <> k' -> mread zero (<[k := v]> m) k' = mread zero m k'.
Proof. intros. rewrite mread_insert. by case_decide. Qed.

(** What one transaction does to the result stored for an existing
    recommendation: nothing, unless it is an accepted reveal callback whose
    pending entry names that recommendation, which sets the flag. *)
Lemma exec_result_of_existing now st c id :
  id <= recommendationCount st ->
  let st' := fst (exec' now st c) in
  decryptedResults st' !! id = decryptedResults st !! id \/
  (exists q ct pf,
     c = DecryptRecommendation q ct pf /\
     mread 0 (recommendationRequestToId st) q = id /\
     is_Some (match decryptRecommendation checkSignatures st q ct pf with
              | Ok r => Some r | Err _ => None end) /\
     revealed st id = false /\ revealed st' id = true).
Proof.
  intros Hid.
  destruct (exec_cases now st c) as [(e & _ & ->)|(st' & out & Hd & ->)];
    cbn; [by left |].
  destruct c; cbn in Hd.
  - apply submitEncryptedProfile_Ok in Hd.
    destruct Hd as (_ & _ & _ & _ & _ & -> & _). by left.
  - inversion Hd; subst; cbn. by left.
  - apply generateRecommendation_Ok in Hd.
    destruct Hd as (? & ? & ? & ? & ? & _ & _ & _ & _ & _ & _ & _ & _ & _
                    & -> & _).
    left. apply lookup_insert_ne. lia.
  - apply requestRecommendationDecryption_Ok in Hd.
    destruct Hd as (_ & _ & _ & _ & _ & -> & _). by left.
  - pose proof Hd as Hd'. apply decryptRecommendation_Ok in Hd.
    destruct Hd as (p & m & _ & Hrev & _ & _ & _ & _ & _ & _ & Hres & _).
    destruct (decide (mread 0 (recommendationRequestToId st) requestId = id))
      as [<-|Hne].
    + right. exists requestId, cleartexts, proof.
      rewrite Hd'. repeat split; [by eexists | done |].
      unfold revealed. by rewrite Hres, mread_insert_eq.
    + left. rewrite Hres. by apply lookup_insert_ne.
Qed.

Lemma revealed_lookup st st' id :
  decryptedResults st' !! id = decryptedResults st !! id ->
  revealed st' id = revealed st id.
Proof. unfold revealed, mread. by intros ->. Qed.

Lemma exec_recommendationCount_mono now st c :
  recommendationCount st <= recommendationCount (fst (exec' now st c)).
Proof. destruct (exec_counters now st c) as [_ [[-> _]|[-> _]]]; lia. Qed.

(** Once set, the flag of an existing recommendation stays set. *)
Lemma exec_revealed_stays now st c id :
  id <= recommendationCount st ->
  revealed st id = true ->
  revealed (fst (exec' now st c)) id = true.
Proof.
  intros Hid Hrev.
  destruct (exec_result_of_existing now st c id Hid)
    as [Heq|(? & ? & ? & _ & _ & _ & _ & H)]; [| exact H].
  by rewrite (revealed_lookup _ _ _ Heq).
Qed.

Lemma rises_falls_all_true (l : list bool) :
  Forall (eq true) l -> rises l = 0%nat /\ falls l = 0%nat.
Proof.
  induction 1 as [|a l <- Hl [IHr IHf]]; [done |].
  destruct Hl as [|b l <- Hl]; [done |].
  change (rises (true :: true :: l)) with (0 + rises (true :: l))%nat.
  change (falls (true :: true :: l)) with (0 + falls (true :: l))%nat.
  by rewrite IHr, IHf.
Qed.

Lemma revealHistory_all_true txs : forall st id,
  id <= recommendationCount st ->
  revealed st id = true ->
  Forall (eq true) (revealHistory checkSignatures asEuint32 st txs id).
Proof.
  induction txs as [|[now c] rest IH]; intros st id Hid Hrev; cbn.
  - by repeat constructor.
  - constructor; [done |]. apply IH.
    + pose proof (exec_recommendationCount_mono now st c). lia.
    + by apply exec_revealed_stays.
Qed.

Lemma revealHistory_monotone txs : forall st id,
  id <= recommendationCount st ->
  falls (revealHistory checkSignatures asEuint32 st txs id) = 0%nat /\
  (rises (revealHistory checkSignatures asEuint32 st txs id) <= 1)%nat.
Proof.
  induction txs as [|[now c] rest IH]; intros st id Hid; [cbn; lia |].
  destruct (revealed st id) eqn:Hrev.
  - destruct (rises_falls_all_true _
      (revealHistory_all_true ((now, c) :: rest) st id Hid Hrev)) as [-> ->].
    lia.
  - assert (Hid' : id <= recommendationCount (fst (exec' now st c))).
    { pose proof (exec_recommendationCount_mono now st c). lia. }
    change (revealHistory checkSignatures asEuint32 st ((now, c) :: rest) id)
      with (revealed st id ::
            revealHistory checkSignatures asEuint32
              (fst (exec' now st c)) rest id).
    rewrite Hrev.
    destruct (revealed (fst (exec' now st c)) id) eqn:Hrev'.
    + pose proof (rises_falls_all_true _
        (revealHistory_all_true rest _ id Hid' Hrev')) as [Hr Hf].
      destruct rest as [|[now' c'] rest']; cbn in *; rewrite Hrev' in *;
        cbn in *; lia.
    + destruct (IH _ id Hid') as [Hf Hr].
      destruct rest as [|[now' c'] rest']; cbn in *; rewrite Hrev' in *;
        cbn in *; lia.
Qed.

(** C5: for a recommendation that exists ([1 <= id <= recommendationCount]),
    over every sequence of transactions the [isRevealed] flag never goes from
    [true] to [false] and goes from [false] to [true] at most once; and once
    it is set, a further reveal request fails with "Already decrypted", as
    does every reveal callback whose pending entry names that
    recommendation. *)
Theorem isRevealed_monotone st txs id :
  1 <= id <= recommendationCount st ->
  falls (revealHistory checkSignatures asEuint32 st txs id) = 0%nat /\
  (rises (revealHistory checkSignatures asEuint32 st txs id) <= 1)%nat /\
  (revealed st id = true ->
   (forall reqId,
      requestRecommendationDecryption st id reqId = Err AlreadyDecrypted) /\
   (forall requestId cleartexts proof,
      mread 0 (recommendationRequestToId st) requestId = id ->
      decryptRecommendation checkSignatures st requestId cleartexts proof
      = Err AlreadyDecrypted)).
Proof.
  intros [Hpos Hid].
  destruct (revealHistory_monotone txs st id Hid) as [Hf Hr].
  split; [done |]. split; [done |].
  unfold revealed. intros Hrev. split.
  - intros reqId. unfold requestRecommendationDecryption. by rewrite Hrev.
  - intros q ct pf Hq. unfold decryptRecommendation. rewrite Hq, Hrev.
    destruct (Z.eqb_spec id 0); [lia | done].
Qed.

(** ** The profile registry *)

Lemma initial_profiles_fresh : profiles_fresh initial.
Proof. split; [done |]. intros id _. apply lookup_empty. Qed.

Lemma exec_profiles_fresh now st c :
  profiles_fresh st -> profiles_fresh (fst (exec' now st c)).
Proof.
  intros [Hpos Hfresh].
  destruct (exec_cases now st c) as [(e & _ & ->)|(st' & out & Hd & ->)];
    cbn; [done |].
  destruct c; cbn in Hd.
  - apply submitEncryptedProfile_Ok in Hd.
    destruct Hd as (_ & Hpc & _ & Hp & _). split; [lia |].
    intros id Hid. rewrite Hp, lookup_insert_ne by lia. apply Hfresh. lia.
  - inversion Hd; subst; cbn. done.
  - apply generateRecommendation_Ok in Hd.
    destruct Hd as (? & ? & ? & ? & ? & _ & _ & _ & _ & _ & Hpc & _ & Hp & _).
    split; rewrite ?Hpc, ?Hp; done.
  - apply requestRecommendationDecryption_Ok in Hd.
    destruct Hd as (_ & Hpc & _ & Hp & _). split; rewrite ?Hpc, ?Hp; done.
  - apply decryptRecommendation_Ok in Hd.
    destruct Hd as (? & ? & _ & _ & _ & _ & Hpc & _ & Hp & _).
    split; rewrite ?Hpc, ?Hp; done.
Qed.

Lemma run_profiles_fresh txs : forall st,
  profiles_fresh st -> profiles_fresh (fst (run' st txs)).
Proof.
  induction txs as [|[now c] rest IH]; intros st Hst; [done |].
  rewrite run_cons. cbn [fst]. by apply IH, exec_profiles_fresh.
Qed.

(** C10 (amended): [getEncryptedProfile] has no failure path.  In every
    storage reached from deployment, for [id = 0] and for every id above the
    profile counter (no profile was ever stored there) it returns the
    all-zero record: four zero handles and timestamp 0. *)
Theorem getEncryptedProfile_unknown_id txs id :
  id = 0 \/ profileCount (fst (run' initial txs)) < id ->
  getEncryptedProfile (fst (run' initial txs)) id = (0, 0, 0, 0, 0).
Proof.
  intros Hid.
  destruct (run_profiles_fresh txs initial initial_profiles_fresh)
    as [_ Hfresh].
  unfold getEncryptedProfile, mread. rewrite Hfresh; [done | lia].
Qed.

(** ** Requests *)

(** C7 (amended): the two requesting functions make no existence check.
    For a profile id with nothing stored, [requestFinancialRecommendation]
    succeeds: it asks the oracle to decrypt four zero handles and records the
    pending entry.  For a recommendation id with nothing stored whose result
    slot is not marked revealed, [requestRecommendationDecryption] succeeds
    likewise with two zero handles. *)
Theorem request_for_unknown_subject st profileId recommendationId reqId :
  encryptedProfiles st !! profileId = None ->
  encryptedRecommendations st !! recommendationId = None ->
  revealed st recommendationId = false ->
  (exists st',
     requestFinancialRecommendation st profileId reqId
     = Ok (st', [RequestDecryption [0; 0; 0; 0]
                   generateRecommendation_selector reqId;
                 RecommendationRequested reqId profileId]) /\
     requestToProfileId st' !! reqId = Some profileId) /\
  (exists st',
     requestRecommendationDecryption st recommendationId reqId
     = Ok (st', [RequestDecryption [0; 0]
                   decryptRecommendation_selector reqId]) /\
     recommendationRequestToId st' !! reqId = Some recommendationId).
Proof.
  intros Hp Hr Hrev. split.
  - unfold requestFinancialRecommendation, mread. rewrite Hp. cbn.
    eexists. split; [reflexivity |]. cbn. apply lookup_insert_eq.
  - unfold requestRecommendationDecryption.
    unfold revealed in Hrev. rewrite Hrev. unfold mread at 1 2. rewrite Hr. cbn.
    eexists. split; [reflexivity |]. cbn. apply lookup_insert_eq.
Qed.

Lemma exec_reveal_request now st id reqId :
  revealed st id = false ->
  decryptedResults (fst (exec' now st (RequestRecommendationDecryption id reqId)))
  = decryptedResults st /\
  recommendationRequestToId
    (fst (exec' now st (RequestRecommendationDecryption id reqId)))
  = <[reqId := id]> (recommendationRequestToId st).
Proof.
  unfold revealed, exec, dispatch, requestRecommendationDecryption.
  by intros ->.
Qed.

(** C9 (amended): pending requests are keyed by the request id alone.  Two
    requests for the same subject and kind under different request ids are
    both accepted and both entries stay recorded for that subject. *)
Theorem repeated_request_both_recorded st subject reqId1 reqId2 now1 now2 :
  subject <> 0 ->
  reqId1 <> reqId2 ->
  (let st2 := fst (run' st
       [(now1, RequestFinancialRecommendation subject reqId1);
        (now2, RequestFinancialRecommendation subject reqId2)]) in
   mread 0 (requestToProfileId st2) reqId1 = subject /\
   mread 0 (requestToProfileId st2) reqId2 = subject) /\
  (revealed st subject = false ->
   let st2 := fst (run' st
       [(now1, RequestRecommendationDecryption subject reqId1);
        (now2, RequestRecommendationDecryption subject reqId2)]) in
   mread 0 (recommendationRequestToId st2) reqId1 = subject /\
   mread 0 (recommendationRequestToId st2) reqId2 = subject).
Proof.
  intros Hs Hq. split.
  - cbn. split.
    + by rewrite mread_insert_ne, mread_insert_eq.
    + by rewrite mread_insert_eq.
  - intros Hrev. cbn zeta. rewrite !run_cons. cbn [fst run].
    set (st1 := fst (exec' now1 st (RequestRecommendationDecryption subject reqId1))).
    destruct (exec_reveal_request now1 st subject reqId1 Hrev) as [Hres1 Hreq1].
    fold st1 in Hres1, Hreq1.
    destruct (exec_reveal_request now2 st1 subject reqId2) as [Hres2 Hreq2].
    { by rewrite (revealed_lookup st st1), Hrev by by rewrite Hres1. }
    rewrite Hreq2, Hreq1. split.
    + by rewrite mread_insert_ne, mread_insert_eq.
    + by rewrite mread_insert_eq.
Qed.

(** ** Callbacks *)

(** C8 (amended): a callback whose proof fails verification changes nothing
    in storage and emits nothing.  With a recorded pending entry the profile
    callback fails inside [FHE.checkSignatures]; so does the reveal callback
    when its target is not yet revealed, while for a target already revealed
    it fails with "Already decrypted", which the contract checks before the
    proof. *)
Theorem callback_with_invalid_proof now st requestId cleartexts proof :
  checkSignatures requestId cleartexts proof = false ->
  (mread 0 (requestToProfileId st) requestId <> 0 ->
   generateRecommendation checkSignatures asEuint32 now st requestId
     cleartexts proof = Err InvalidSignatures) /\
  (mread 0 (recommendationRequestToId st) requestId <> 0 ->
   decryptRecommendation checkSignatures st requestId cleartexts proof
   = if revealed st (mread 0 (recommendationRequestToId st) requestId)
     then Err AlreadyDecrypted else Err InvalidSignatures) /\
  exec' now st (GenerateRecommendation requestId cleartexts proof) = (st, []) /\
  exec' now st (DecryptRecommendation requestId cleartexts proof) = (st, []).
Proof.
  intros Hsig.
  assert (Hgen : forall e,
    mread 0 (requestToProfileId st) requestId = e ->
    generateRecommendation checkSignatures asEuint32 now st requestId
      cleartexts proof
    = if e =? 0 then Err InvalidRequest else Err InvalidSignatures).
  { intros e <-. unfold generateRecommendation. rewrite Hsig.
    by destruct (_ =? 0). }
  assert (Hdec : forall e,
    mread 0 (recommendationRequestToId st) requestId = e ->
    decryptRecommendation checkSignatures st requestId cleartexts proof
    = if e =? 0 then Err InvalidRequest
      else if revealed st e then Err AlreadyDecrypted
      else Err InvalidSignatures).
  { intros e <-. unfold decryptRecommendation, revealed. rewrite Hsig.
    destruct (_ =? 0); [done |]. by destruct (isRevealed _). }
  repeat split.
  - intros Hlive. rewrite (Hgen _ eq_refl).
    by destruct (Z.eqb_spec (mread 0 (requestToProfileId st) requestId) 0).
  - intros Hlive. rewrite (Hdec _ eq_refl).
    by destruct (Z.eqb_spec (mread 0 (recommendationRequestToId st) requestId) 0).
  - unfold exec, dispatch. rewrite (Hgen _ eq_refl). by destruct (_ =? 0).
  - unfold exec, dispatch. rewrite (Hdec _ eq_refl).
    destruct (_ =? 0); [done |]. by destruct (revealed _ _).
Qed.

(** A stored recommendation is never written again. *)
Lemma exec_recommendation_of_existing now st c id :
  id <= recommendationCount st ->
  encryptedRecommendations (fst (exec' now st c)) !! id
  = encryptedRecommendations st !! id.
Proof.
  intros Hid.
  destruct (exec_cases now st c) as [(e & _ & ->)|(st' & out & Hd & ->)];
    cbn; [done |].
  destruct c; cbn in Hd.
  - apply submitEncryptedProfile_Ok in Hd.
    by destruct Hd as (_ & _ & _ & _ & -> & _).
  - by inversion Hd; subst; cbn.
  - apply generateRecommendation_Ok in Hd.
    destruct Hd as (? & ? & ? & ? & ? & _ & _ & _ & _ & _ & _ & _ & _
                    & -> & _).
    apply lookup_insert_ne. lia.
  - apply requestRecommendationDecryption_Ok in Hd.
    by destruct Hd as (_ & _ & _ & _ & -> & _).
  - apply decryptRecommendation_Ok in Hd.
    by destruct Hd as (? & ? & _ & _ & _ & _ & _ & _ & _ & -> & _).
Qed.

(** What an accepted profile callback leaves in the public result record:
    the product id and the match score in the clear, flagged not revealed. *)
Lemma generateRecommendation_result now st q ct pf st' out :
  generateRecommendation checkSignatures asEuint32 now st q ct pf
  = Ok (st', out) ->
  exists income assets riskScore goals p m,
    abi_decode_uint32s 4 ct = Ok [income; assets; riskScore; goals] /\
    compute income assets riskScore goals = Ok (p, m) /\
    getDecryptedResult st' (recommendationCount st') = (p, m, false).
Proof.
  intros H. apply generateRecommendation_Ok in H.
  destruct H as (i & a & r & g & m & _ & _ & Hdec & _ & Hm & _ & Hrc & _ & _
                 & Hres & _).
  exists i, a, r, g, (determineProductId i a r g), m.
  split; [done |]. split.
  - unfold compute. by rewrite Hm.
  - unfold getDecryptedResult. by rewrite Hres, Hrc, mread_insert_eq.
Qed.

Lemma run_recommendationCount_mono txs st :
  recommendationCount st <= recommendationCount (fst (run' st txs)).
Proof. by destruct (run_ids txs st) as [_ [H _]]. Qed.

Lemma run_revealed_stays txs : forall st id,
  id <= recommendationCount st ->
  revealed st id = true ->
  revealed (fst (run' st txs)) id = true.
Proof.
  induction txs as [|[now c] rest IH]; intros st id Hid Hrev; [done |].
  rewrite run_cons. cbn [fst]. apply IH.
  - pose proof (exec_recommendationCount_mono now st c). lia.
  - by apply exec_revealed_stays.
Qed.

(** A reveal callback whose pending entry names a revealed result is
    rejected by the "Already decrypted" guard. *)
Lemma decryptRecommendation_of_revealed st requestId cleartexts proof :
  mread 0 (recommendationRequestToId st) requestId <> 0 ->
  revealed st (mread 0 (recommendationRequestToId st) requestId) = true ->
  decryptRecommendation checkSignatures st requestId cleartexts proof
  = Err AlreadyDecrypted.
Proof.
  unfold revealed, decryptRecommendation. intros Hlive ->.
  by destruct (Z.eqb_spec (mread 0 (recommendationRequestToId st) requestId) 0).
Qed.

(** C1 (amended): a callback whose request id has no recorded pending entry
    fails with "Invalid request" and changes nothing.  A second delivery of
    an accepted reveal callback under the same request id fails with
    "Already decrypted" and changes nothing: when it directly follows the
    first delivery, and also after any further transactions, provided the
    revealed id was an existing recommendation when the first delivery was
    accepted and the pending entry of the request id still names it.  The
    recommendation and the result record created by an accepted profile
    callback are not touched by a second delivery under the same request id,
    whenever it arrives. *)
Theorem callback_without_entry_or_replayed now st requestId cleartexts proof :
  (mread 0 (requestToProfileId st) requestId = 0 ->
   generateRecommendation checkSignatures asEuint32 now st requestId
     cleartexts proof = Err InvalidRequest /\
   exec' now st (GenerateRecommendation requestId cleartexts proof) = (st, [])) /\
  (mread 0 (recommendationRequestToId st) requestId = 0 ->
   decryptRecommendation checkSignatures st requestId cleartexts proof
   = Err InvalidRequest /\
   exec' now st (DecryptRecommendation requestId cleartexts proof) = (st, [])) /\
  (forall st1 out,
     decryptRecommendation checkSignatures st requestId cleartexts proof
     = Ok (st1, out) ->
     (forall now' cleartexts' proof',
        decryptRecommendation checkSignatures st1 requestId cleartexts' proof'
        = Err AlreadyDecrypted /\
        exec' now' st1 (DecryptRecommendation requestId cleartexts' proof')
        = (st1, [])) /\
     (mread 0 (recommendationRequestToId st) requestId
      <= recommendationCount st ->
      forall txs now' cleartexts' proof',
        let st2 := fst (run' st1 txs) in
        mread 0 (recommendationRequestToId st2) requestId
        = mread 0 (recommendationRequestToId st) requestId ->
        decryptRecommendation checkSignatures st2 requestId cleartexts' proof'
        = Err AlreadyDecrypted /\
        exec' now' st2 (DecryptRecommendation requestId cleartexts' proof')
        = (st2, []))) /\
  (forall st1 out,
     generateRecommendation checkSignatures asEuint32 now st requestId
       cleartexts proof = Ok (st1, out) ->
     forall txs now' cleartexts' proof',
       let st2 := fst (run' st1 txs) in
       let st3 :=
         fst (exec' now' st2
                (GenerateRecommendation requestId cleartexts' proof')) in
       encryptedRecommendations st3 !! recommendationCount st1
       = encryptedRecommendations st2 !! recommendationCount st1 /\
       decryptedResults st3 !! recommendationCount st1
       = decryptedResults st2 !! recommendationCount st1).
Proof.
  split; [| split; [| split]].
  - intros Hnone.
    assert (Hr : generateRecommendation checkSignatures asEuint32 now st
                   requestId cleartexts proof = Err InvalidRequest).
    { unfold generateRecommendation. by rewrite Hnone. }
    split; [done |]. by apply (exec_Err _ _ _ InvalidRequest).
  - intros Hnone.
    assert (Hr : decryptRecommendation checkSignatures st requestId
                   cleartexts proof = Err InvalidRequest).
    { unfold decryptRecommendation. by rewrite Hnone. }
    split; [done |]. by apply (exec_Err _ _ _ InvalidRequest).
  - intros st1 out H. apply decryptRecommendation_Ok in H.
    destruct H as (p & m & Hlive & _ & _ & _ & _ & Hrc & _ & _ & Hres & _
                   & Hreq & _).
    assert (Hrev1 : revealed st1
                      (mread 0 (recommendationRequestToId st) requestId)
                    = true).
    { unfold revealed. by rewrite Hres, mread_insert_eq. }
    split.
    + intros now' ct' pf'.
      assert (Hr : decryptRecommendation checkSignatures st1 requestId ct' pf'
                   = Err AlreadyDecrypted).
      { apply decryptRecommendation_of_revealed; by rewrite Hreq. }
      split; [done |]. by apply (exec_Err _ _ _ AlreadyDecrypted).
    + intros Hex txs now' ct' pf'. cbn zeta. intros Hentry.
      assert (Hr : decryptRecommendation checkSignatures (fst (run' st1 txs))
                     requestId ct' pf' = Err AlreadyDecrypted).
      { apply decryptRecommendation_of_revealed; rewrite Hentry; [done |].
        apply run_revealed_stays; [lia | done]. }
      split; [done |]. by apply (exec_Err _ _ _ AlreadyDecrypted).
  - intros st1 out H txs now' ct' pf'. cbn zeta.
    pose proof (run_recommendationCount_mono txs st1) as Hmono.
    split.
    + apply exec_recommendation_of_existing. lia.
    + destruct (exec_result_of_existing now' (fst (run' st1 txs))
                  (GenerateRecommendation requestId ct' pf')
                  (recommendationCount st1))
        as [Heq|(? & ? & ? & Hc & _)]; [lia | done | discriminate Hc].
Qed.

End Steps.

(** * Worked scenarios with the concrete oracle *)

Ltac by_eval := vm_compute; first [reflexivity | congruence | tauto].

(** The events of the full workflow: submission, request, generation, two
    reveal requests and one reveal. *)
Example revealed_once_log :
  snd (demo_run initial revealed_once)
  = [ProfileSubmitted 1 100;
     RequestDecryption [11; 12; 13; 14] generateRecommendation_selector 7;
     RecommendationRequested 7 1;
     RecommendationGenerated 1;
     RequestDecryption [4099; 4196] decryptRecommendation_selector 8;
     RequestDecryption [4099; 4196] decryptRecommendation_selector 9;
     ResultDecrypted 1].
Proof. by_eval. Qed.

(** ** C1 *)

(** C1, as stated, fails: after the profile callback for request 7 was
    accepted, its pending entry is still recorded, and a second delivery
    under request id 7 is accepted again: it moves the recommendation counter
    from 1 to 2 and emits [RecommendationGenerated 2].  A second delivery of
    the accepted reveal callback is rejected, but with "Already decrypted",
    not "Invalid request". *)
Lemma replayed_callback_not_unknown :
  let st1 := fst (demo_run initial (generated_with profileA)) in
  let replay := GenerateRecommendation 7 profileA good_proof in
  mread 0 (requestToProfileId st1) 7 = 1 /\
  recommendationCount st1 = 1 /\
  recommendationCount (fst (demo_exec 103 st1 replay)) = 2 /\
  snd (demo_exec 103 st1 replay) = [RecommendationGenerated 2] /\
  decryptRecommendation demo_checkSignatures
    (fst (demo_run initial revealed_once)) 8 resultA good_proof
  = Err AlreadyDecrypted.
Proof. repeat split; by_eval. Qed.

(** Request 5 was never issued; request 8 was answered once and is
    delivered again after a further profile callback; request 7 created
    recommendation 1 and is delivered again after its reveal. *)
Lemma callback_without_entry_or_replayed_witness :
  mread 0 (requestToProfileId initial) 5 = 0 /\
  generateRecommendation demo_checkSignatures demo_asEuint32 100 initial 5
    profileA good_proof = Err InvalidRequest /\
  (forall cleartexts' proof',
     decryptRecommendation demo_checkSignatures
       (fst (demo_run initial revealed_once)) 8 cleartexts' proof'
     = Err AlreadyDecrypted) /\
  (forall cleartexts' proof',
     decryptRecommendation demo_checkSignatures
       (fst (demo_run (fst (demo_run initial revealed_once))
               [(106, GenerateRecommendation 7 profileB good_proof)]))
       8 cleartexts' proof'
     = Err AlreadyDecrypted) /\
  (forall now' cleartexts' proof',
     let st2 := fst (demo_run (fst (demo_run initial (generated_with profileA)))
                       after_generation) in
     decryptedResults
       (fst (demo_exec now' st2
               (GenerateRecommendation 7 cleartexts' proof'))) !! 1
     = decryptedResults st2 !! 1).
Proof.
  assert (H0 : mread 0 (requestToProfileId initial) 5 = 0) by reflexivity.
  pose proof (callback_without_entry_or_replayed
    demo_checkSignatures demo_asEuint32 105
    (fst (demo_run initial reveal_requested)) 8 resultA good_proof)
    as (_ & _ & H3 & _).
  assert (Hacc : decryptRecommendation demo_checkSignatures
                   (fst (demo_run initial reveal_requested)) 8 resultA
                   good_proof
                 = Ok (fst (demo_run initial revealed_once),
                       [ResultDecrypted 1]))
    by by_eval.
  destruct (H3 _ _ Hacc) as [Hnow Hlater].
  split; [exact H0 |]. split; [| split; [| split]].
  - exact (proj1 (proj1 (callback_without_entry_or_replayed
      demo_checkSignatures demo_asEuint32 100 initial 5 profileA good_proof)
      H0)).
  - intros ct' pf'. exact (proj1 (Hnow 0 ct' pf')).
  - intros ct' pf'.
    assert (Hex : mread 0 (recommendationRequestToId
                    (fst (demo_run initial reveal_requested))) 8
                  <= recommendationCount
                       (fst (demo_run initial reveal_requested)))
      by by_eval.
    assert (Hentry : mread 0 (recommendationRequestToId
                (fst (demo_run (fst (demo_run initial revealed_once))
                        [(106, GenerateRecommendation 7 profileB good_proof)])))
                8
              = mread 0 (recommendationRequestToId
                           (fst (demo_run initial reveal_requested))) 8)
      by by_eval.
    exact (proj1 (Hlater Hex
             [(106, GenerateRecommendation 7 profileB good_proof)]
             0 ct' pf' Hentry)).
  - intros now' ct' pf'.
    pose proof (callback_without_entry_or_replayed
      demo_checkSignatures demo_asEuint32 102
      (fst (demo_run initial (firstn 2 (generated_with profileA)))) 7
      profileA good_proof) as (_ & _ & _ & H4).
    assert (H : generateRecommendation demo_checkSignatures demo_asEuint32 102
                  (fst (demo_run initial (firstn 2 (generated_with profileA))))
                  7 profileA good_proof
                = Ok (fst (demo_run initial (generated_with profileA)),
                      [RecommendationGenerated 1]))
      by by_eval.
    exact (proj2 (H4 _ _ H after_generation now' ct' pf')).
Defined.

(** Why the second delivery of a reveal callback needs an existing
    recommendation: request 8 reveals the result slot of id 1 before
    recommendation 1 exists, the creation of recommendation 1 writes the flag
    back, and the same delivery under request id 8 is accepted again. *)
Example reveal_replayed_after_slot_reset :
  snd (demo_run initial
         ([(1, RequestRecommendationDecryption 1 8);
           (2, DecryptRecommendation 8 resultA good_proof)]
          ++ generated_with profileA
          ++ [(103, DecryptRecommendation 8 resultA good_proof)]))
  = [RequestDecryption [0; 0] decryptRecommendation_selector 8;
     ResultDecrypted 1;
     ProfileSubmitted 1 100;
     RequestDecryption [11; 12; 13; 14] generateRecommendation_selector 7;
     RecommendationRequested 7 1;
     RecommendationGenerated 1;
     ResultDecrypted 1].
Proof. by_eval. Qed.

(** ** C2 *)

(** C2: two runs that differ only in the decrypted profile values.  In both,
    no reveal was requested and [isRevealed] is [false], yet
    [getDecryptedResult] already returns the product id and the match score
    computed from the profile: (3, 100) in one run and (1, 6) in the other. *)
Theorem result_readable_before_reveal :
  getDecryptedResult (fst (demo_run initial (generated_with profileA))) 1
  = (3, 100, false) /\
  getDecryptedResult (fst (demo_run initial (generated_with profileB))) 1
  = (1, 6, false) /\
  abi_decode_uint32s 4 profileA = Ok [50000; 600000; 80; 1] /\
  abi_decode_uint32s 4 profileB = Ok [10000; 1000; 5; 0].
Proof. repeat split; by_eval. Qed.

(** ** C5 *)

(** Recommendation 1 over [after_generation]. *)
Lemma isRevealed_monotone_witness :
  let st := fst (demo_run initial (generated_with profileA)) in
  1 <= 1 <= recommendationCount st /\
  falls (revealHistory demo_checkSignatures demo_asEuint32 st
           after_generation 1) = 0%nat /\
  (rises (revealHistory demo_checkSignatures demo_asEuint32 st
            after_generation 1) <= 1)%nat.
Proof.
  cbn zeta.
  assert (H : 1 <= 1 <= recommendationCount
                (fst (demo_run initial (generated_with profileA))))
    by (split; by_eval).
  split; [exact H |].
  pose proof (isRevealed_monotone demo_checkSignatures demo_asEuint32
                _ after_generation 1 H) as (Hf & Hr & _).
  split; [exact Hf | exact Hr].
Defined.

(** The flag of recommendation 1 over [after_generation]: it is set by the
    answer to request 8 and stays set through the replays. *)
Example after_generation_history :
  revealHistory demo_checkSignatures demo_asEuint32
    (fst (demo_run initial (generated_with profileA))) after_generation 1
  = [false; false; false; true; true; true; true; true].
Proof. by_eval. Qed.

(** Existence matters: the result slot of an id above the recommendation
    counter can be requested and revealed, and the later creation of that
    recommendation writes the flag back to [false]. *)
Example slot_revealed_before_creation :
  revealHistory demo_checkSignatures demo_asEuint32 initial
    ([(1, RequestRecommendationDecryption 1 8);
      (2, DecryptRecommendation 8 resultA good_proof)]
     ++ generated_with profileA) 1
  = [false; false; true; true; true; false].
Proof. by_eval. Qed.

(** ** C6 *)

Example ids_of_three_submissions :
  submittedIds (snd (demo_run initial
    [(1, SubmitEncryptedProfile 1 2 3 4);
     (2, SubmitEncryptedProfile 1 2 3 4);
     (3, RequestFinancialRecommendation 2 7);
     (4, SubmitEncryptedProfile 5 6 7 8)])) = [1; 2; 3].
Proof. by_eval. Qed.

(** ** C7 *)

(** C7, as stated, fails: on the freshly deployed contract, where no profile
    and no recommendation exists, both requests are accepted, reach the
    oracle and record their pending entry. *)
Lemma request_for_missing_subject_accepted :
  encryptedProfiles initial !! 7 = None /\
  encryptedRecommendations initial !! 9 = None /\
  snd (demo_exec 100 initial (RequestFinancialRecommendation 7 1))
  = [RequestDecryption [0; 0; 0; 0] generateRecommendation_selector 1;
     RecommendationRequested 1 7] /\
  mread 0 (requestToProfileId
             (fst (demo_exec 100 initial (RequestFinancialRecommendation 7 1)))) 1
  = 7 /\
  snd (demo_exec 100 initial (RequestRecommendationDecryption 9 2))
  = [RequestDecryption [0; 0] decryptRecommendation_selector 2] /\
  mread 0 (recommendationRequestToId
             (fst (demo_exec 100 initial (RequestRecommendationDecryption 9 2)))) 2
  = 9.
Proof. repeat split; by_eval. Qed.

(** Profile 7 and recommendation 9 on the freshly deployed contract. *)
Lemma request_for_unknown_subject_witness :
  encryptedProfiles initial !! 7 = None /\
  encryptedRecommendations initial !! 9 = None /\
  revealed initial 9 = false /\
  (exists st',
     requestFinancialRecommendation initial 7 1
     = Ok (st', [RequestDecryption [0; 0; 0; 0]
                   generateRecommendation_selector 1;
                 RecommendationRequested 1 7]) /\
     requestToProfileId st' !! 1 = Some 7).
Proof.
  assert (H1 : encryptedProfiles initial !! 7 = None) by reflexivity.
  assert (H2 : encryptedRecommendations initial !! 9 = None) by reflexivity.
  assert (H3 : revealed initial 9 = false) by reflexivity.
  repeat (split; [assumption |]).
  exact (proj1 (request_for_unknown_subject initial 7 9 1 H1 H2 H3)).
Defined.

(** ** C8 *)

(** C8, as stated, fails on the error: request 9 was issued for
    recommendation 1 and never answered, so its pending entry is live; after
    the answer to request 8 revealed the recommendation, a delivery for
    request 9 with a proof that fails verification is rejected with
    "Already decrypted", not by the proof check. *)
Lemma invalid_proof_reported_as_already_decrypted :
  let st := fst (demo_run initial revealed_once) in
  mread 0 (recommendationRequestToId st) 9 = 1 /\
  demo_checkSignatures 9 resultA bad_proof = false /\
  decryptRecommendation demo_checkSignatures st 9 resultA bad_proof
  = Err AlreadyDecrypted.
Proof. repeat split; by_eval. Qed.

(** Request 8 is pending, its target is not revealed, the proof is bad. *)
Lemma callback_with_invalid_proof_witness :
  let st := fst (demo_run initial reveal_requested) in
  demo_checkSignatures 8 resultA bad_proof = false /\
  mread 0 (recommendationRequestToId st) 8 <> 0 /\
  decryptRecommendation demo_checkSignatures st 8 resultA bad_proof
  = Err InvalidSignatures /\
  demo_exec 105 st (DecryptRecommendation 8 resultA bad_proof) = (st, []).
Proof.
  cbn zeta.
  assert (H1 : demo_checkSignatures 8 resultA bad_proof = false) by reflexivity.
  assert (H2 : mread 0 (recommendationRequestToId
                          (fst (demo_run initial reveal_requested))) 8 <> 0)
    by by_eval.
  split; [exact H1 |]. split; [exact H2 |].
  pose proof (callback_with_invalid_proof demo_checkSignatures demo_asEuint32
                105 (fst (demo_run initial reveal_requested)) 8 resultA
                bad_proof H1) as (_ & Hdec & _ & Hexec).
  split; [| exact Hexec].
  rewrite (Hdec H2). by_eval.
Defined.

(** ** C9 *)

(** C9, as stated, fails: a second request for profile 1, issued while the
    first is unanswered, is accepted under request id 8; the entry of request
    7 stays, and the oracle's answers to both are accepted afterwards. *)
Lemma two_live_requests_for_one_profile :
  let st := fst (demo_run initial requested_twice) in
  mread 0 (requestToProfileId st) 7 = 1 /\
  mread 0 (requestToProfileId st) 8 = 1 /\
  snd (demo_run st
         [(103, GenerateRecommendation 7 profileA good_proof);
          (104, GenerateRecommendation 8 profileA good_proof)])
  = [RecommendationGenerated 1; RecommendationGenerated 2].
Proof. repeat split; by_eval. Qed.

(** Profile 1 requested under ids 7 and 8. *)
Lemma repeated_request_both_recorded_witness :
  let st := fst (demo_run initial [(100, SubmitEncryptedProfile 11 12 13 14)]) in
  let st2 := fst (demo_run st
       [(101, RequestFinancialRecommendation 1 7);
        (102, RequestFinancialRecommendation 1 8)]) in
  1 <> 0 /\ 7 <> 8 /\
  mread 0 (requestToProfileId st2) 7 = 1 /\
  mread 0 (requestToProfileId st2) 8 = 1.
Proof.
  cbn zeta.
  assert (H1 : 1 <> 0) by lia.
  assert (H2 : 7 <> 8) by lia.
  split; [exact H1 |]. split; [exact H2 |].
  exact (proj1 (repeated_request_both_recorded demo_checkSignatures
                  demo_asEuint32
                  (fst (demo_run initial [(100, SubmitEncryptedProfile 11 12 13 14)]))
                  1 7 8 101 102 H1 H2)).
Defined.

(** ** C10 *)

(** C10, as stated, fails: [getEncryptedProfile] returns the all-zero record
    for id 0 and for an id under which nothing was stored. *)
Lemma getEncryptedProfile_returns_zero_record :
  let st := fst (demo_run initial [(100, SubmitEncryptedProfile 11 12 13 14)]) in
  getEncryptedProfile st 1 = (11, 12, 13, 14, 100) /\
  getEncryptedProfile st 0 = (0, 0, 0, 0, 0) /\
  getEncryptedProfile st 5 = (0, 0, 0, 0, 0).
Proof. repeat split; by_eval. Qed.

(** One profile stored, id 5 read. *)
Lemma getEncryptedProfile_unknown_id_witness :
  let txs := [(100, SubmitEncryptedProfile 11 12 13 14)] in
  (5 = 0 \/ profileCount (fst (demo_run initial txs)) < 5) /\
  getEncryptedProfile (fst (demo_run initial txs)) 5 = (0, 0, 0, 0, 0).
Proof.
  cbn zeta.
  assert (H : 5 = 0 \/
              profileCount (fst (demo_run initial
                [(100, SubmitEncryptedProfile 11 12 13 14)])) < 5)
    by (right; by_eval).
  split; [exact H |].
  exact (getEncryptedProfile_unknown_id demo_checkSignatures demo_asEuint32
           [(100, SubmitEncryptedProfile 11 12 13 14)] 5 H).
Defined.

(** * Further properties of the contract *)

(** ** Decoding the cleartexts *)

Lemma be_to_Z_acc (bs : list byte) (acc : Z) :
  fold_left (fun a b => a * 256 + Z.of_N (Byte.to_N b)) bs acc
  = acc * 256 ^ Z.of_nat (length bs) + be_to_Z bs.
Proof.
  unfold be_to_Z. revert acc.
  induction bs as [|b bs IH]; intros acc; cbn [fold_left length].
  - cbn. lia.
  - rewrite IH, (IH (0 * 256 + _)).
    rewrite Nat2Z.inj_succ, Z.pow_succ_r by lia. lia.
Qed.

Lemma be_to_Z_nonneg (bs : list byte) : 0 <= be_to_Z bs.
Proof.
  unfold be_to_Z.
  assert (H : forall acc, 0 <= acc ->
    0 <= fold_left (fun a b => a * 256 + Z.of_N (Byte.to_N b)) bs acc).
  { induction bs as [|b bs IH]; intros acc Hacc; cbn; [done |].
    apply IH. lia. }
  by apply H.
Qed.

Lemma abi_decode_uint32s_Ok n bs ws :
  abi_decode_uint32s n bs = Ok ws ->
  (32 * n <= length bs)%nat /\
  ws = map (fun i => be_to_Z (abi_word bs i)) (seq 0 n) /\
  Forall (fun w => w <= MAX_UINT32) ws.
Proof.
  unfold abi_decode_uint32s, require.
  destruct (Nat.leb_spec (32 * n) (length bs)); cbn; [| discriminate].
  destruct (forallb _ _) eqn:Hall; cbn; [| discriminate].
  intros [= <-]. repeat split; [done |].
  rewrite forallb_forall in Hall. apply Forall_forall.
  intros w Hw. apply list_elem_of_In, Hall in Hw. lia.
Qed.

Lemma abi_decode_uint32s_range n bs ws :
  abi_decode_uint32s n bs = Ok ws -> length ws = n /\ Forall is_uint32 ws.
Proof.
  intros H. apply abi_decode_uint32s_Ok in H as (_ & -> & Hmax).
  split; [by rewrite length_map, length_seq |].
  apply Forall_forall. intros w Hw. split.
  - apply list_elem_of_In, in_map_iff in Hw as (i & <- & _).
    apply be_to_Z_nonneg.
  - rewrite Forall_forall in Hmax. by apply Hmax.
Qed.

Lemma abi_decode_uint32s_trailing n bs extra :
  (32 * n <= length bs)%nat ->
  abi_decode_uint32s n (bs ++ extra) = abi_decode_uint32s n bs.
Proof.
  intros Hlen. unfold abi_decode_uint32s.
  assert (Hw : map (fun i => be_to_Z (abi_word (bs ++ extra) i)) (seq 0 n)
               = map (fun i => be_to_Z (abi_word bs i)) (seq 0 n)).
  { apply map_ext_in. intros i Hi. apply in_seq in Hi.
    unfold abi_word. f_equal.
    rewrite drop_app_le by lia. rewrite take_app_le; [done |].
    rewrite length_drop. lia. }
  rewrite Hw, length_app.
  destruct (Nat.leb_spec (32 * n) (length bs)); [| lia].
  destruct (Nat.leb_spec (32 * n) (length bs + length extra)); [done | lia].
Qed.

(** X7: what [abi.decode] hands to the callbacks.  A successful decoding
    into [n] components yields exactly [n] values, each within [uint32]; and
    the decoding looks at the first [32 * n] bytes only, so bytes appended to
    a long enough payload change nothing. *)
Theorem abi_decode_uint32s_shape n bs extra :
  (forall ws, abi_decode_uint32s n bs = Ok ws ->
     length ws = n /\ Forall is_uint32 ws) /\
  ((32 * n <= length bs)%nat ->
   abi_decode_uint32s n (bs ++ extra) = abi_decode_uint32s n bs).
Proof.
  split.
  - apply abi_decode_uint32s_range.
  - apply abi_decode_uint32s_trailing.
Qed.

Lemma byte_of_Z_value (x : Z) :
  Z.of_N (Byte.to_N (byte_of_Z x)) = x mod 256.
Proof.
  unfold byte_of_Z.
  destruct (Byte.of_N (Z.to_N (x mod 256))) as [b|] eqn:E.
  - apply Byte.to_of_N in E. rewrite E.
    rewrite Z2N.id; [done |]. apply Z.mod_pos_bound. lia.
  - apply Byte.of_N_None_iff in E.
    pose proof (Z.mod_pos_bound x 256 ltac:(lia)). exfalso. lia.
Qed.

(** The [k] low base-256 digits of [w], most significant first. *)
Lemma be_to_Z_digits (k : nat) : forall w,
  0 <= w ->
  be_to_Z (map (fun i => byte_of_Z (w / 256 ^ (Z.of_nat k - 1 - Z.of_nat i)))
             (seq 0 k))
  = w mod 256 ^ Z.of_nat k.
Proof.
  induction k as [|k IH]; intros w Hw.
  - cbn. by rewrite Z.mod_1_r.
  - rewrite seq_S, map_app. cbn [map Nat.add].
    unfold be_to_Z. rewrite fold_left_app. cbn [fold_left].
    fold (be_to_Z (map (fun i => byte_of_Z
            (w / 256 ^ (Z.of_nat (S k) - 1 - Z.of_nat i))) (seq 0 k))).
    rewrite byte_of_Z_value.
    replace (Z.of_nat (S k) - 1 - Z.of_nat k) with 0 by lia.
    rewrite Z.pow_0_r, Z.div_1_r.
    assert (Hmap : map (fun i => byte_of_Z
                      (w / 256 ^ (Z.of_nat (S k) - 1 - Z.of_nat i))) (seq 0 k)
                 = map (fun i => byte_of_Z
                      (w / 256 / 256 ^ (Z.of_nat k - 1 - Z.of_nat i))) (seq 0 k)).
    { apply map_ext_in. intros i Hi. apply in_seq in Hi. f_equal.
      rewrite Z.div_div by lia. f_equal.
      rewrite <- Z.pow_succ_r by lia. f_equal. lia. }
    rewrite Hmap, IH by (apply Z.div_pos; lia).
    rewrite Nat2Z.inj_succ, Z.pow_succ_r by lia.
    rewrite Z.rem_mul_r by lia.
    lia.
Qed.

Lemma abi_encode_word_length w : length (abi_encode_word w) = 32%nat.
Proof. unfold abi_encode_word. by rewrite length_map, length_seq. Qed.

Lemma be_to_Z_abi_encode_word w :
  0 <= w <= MAX_UINT256 -> be_to_Z (abi_encode_word w) = w.
Proof.
  intros Hw. unfold abi_encode_word.
  change 31 with (Z.of_nat 32 - 1).
  rewrite be_to_Z_digits by lia.
  apply Z.mod_small. unfold MAX_UINT256 in Hw.
  change (256 ^ Z.of_nat 32) with (MAX_UINT256 + 1). unfold MAX_UINT256. lia.
Qed.

Lemma abi_encode_length ws : length (abi_encode ws) = (32 * length ws)%nat.
Proof.
  unfold abi_encode. induction ws as [|w ws IH]; [done |].
  cbn [map concat length]. rewrite length_app, abi_encode_word_length, IH. lia.
Qed.

Lemma abi_word_encode ws : forall i w,
  ws !! i = Some w -> abi_word (abi_encode ws) i = abi_encode_word w.
Proof.
  unfold abi_word, abi_encode.
  induction ws as [|v ws IH]; intros i w Hi; [done |].
  cbn [map concat]. destruct i as [|i]; cbn in Hi.
  - injection Hi as ->. rewrite Nat.mul_0_r, drop_0.
    rewrite take_app_le by (rewrite abi_encode_word_length; lia).
    apply take_ge. rewrite abi_encode_word_length. lia.
  - replace (32 * S i)%nat with (length (abi_encode_word v) + 32 * i)%nat
      by (rewrite abi_encode_word_length; lia).
    rewrite drop_app_add. by apply IH.
Qed.

Lemma abi_decode_encode_app ws extra :
  Forall is_uint32 ws ->
  abi_decode_uint32s (length ws) (abi_encode ws ++ extra) = Ok ws.
Proof.
  intros Hws.
  rewrite abi_decode_uint32s_trailing by (rewrite abi_encode_length; lia).
  assert (Hleb : Nat.leb (32 * length ws) (length (abi_encode ws)) = true).
  { apply Nat.leb_le. rewrite abi_encode_length. lia. }
  assert (Hmap : map (fun i => be_to_Z (abi_word (abi_encode ws) i))
                   (seq 0 (length ws)) = ws).
  { apply list_eq. intros i. rewrite list_lookup_fmap.
    destruct (ws !! i) as [w|] eqn:Hi.
    - rewrite lookup_seq_lt by (by eapply lookup_lt_Some).
      cbn -[abi_word abi_encode be_to_Z].
      rewrite (abi_word_encode ws i w Hi). f_equal.
      apply be_to_Z_abi_encode_word.
      rewrite Forall_forall in Hws.
      destruct (Hws w) as [? ?]; [by eapply list_elem_of_lookup_2 |].
      unfold MAX_UINT32, MAX_UINT256 in *. lia.
    - rewrite lookup_seq_ge; [done |]. by apply lookup_ge_None. }
  assert (Hall : forallb (fun w => w <=? MAX_UINT32) ws = true).
  { apply forallb_forall. intros w Hw.
    rewrite Forall_forall in Hws. apply list_elem_of_In in Hw.
    destruct (Hws w Hw). lia. }
  unfold abi_decode_uint32s, require. by rewrite Hleb, Hmap, Hall.
Qed.

(** X9: decoding inverts the ABI encoding.  The standard encoding of [n]
    values within [uint32], followed by any further bytes, decodes into
    exactly these values. *)
Theorem abi_decode_encode ws extra :
  Forall is_uint32 ws ->
  abi_decode_uint32s (length ws) (abi_encode ws ++ extra) = Ok ws.
Proof. apply abi_decode_encode_app. Qed.

Lemma abi_decode_uint32s_complete n bs :
  (32 * n <= length bs)%nat ->
  Forall (fun w => w <= MAX_UINT32)
    (map (fun i => be_to_Z (abi_word bs i)) (seq 0 n)) ->
  abi_decode_uint32s n bs
  = Ok (map (fun i => be_to_Z (abi_word bs i)) (seq 0 n)).
Proof.
  intros Hlen Hall. unfold abi_decode_uint32s, require.
  apply Nat.leb_le in Hlen. rewrite Hlen.
  assert (H : forallb (fun w => w <=? MAX_UINT32)
                (map (fun i => be_to_Z (abi_word bs i)) (seq 0 n)) = true).
  { apply forallb_forall. intros w Hw. rewrite Forall_forall in Hall.
    apply list_elem_of_In, Hall in Hw. lia. }
  by rewrite H.
Qed.

(** ** The scoring helpers, continued *)

Lemma calculateMatchScore_range income assets riskScore goals m :
  is_uint32 income -> is_uint32 assets ->
  is_uint32 riskScore -> is_uint32 goals ->
  calculateMatchScore income assets riskScore goals = Ok m ->
  0 <= m <= 100.
Proof.
  intros Hi Ha Hr Hg H.
  destruct (Z.le_gt_cases (spec_scoreSum income assets riskScore goals)
              MAX_UINT32) as [Hfit|Hover].
  - rewrite (calculateMatchScore_fits _ _ _ _ Hi Ha Hr Hg Hfit) in H.
    injection H as <-.
    destruct (scoreSum_parts _ _ _ _ Hi Ha Hr Hg) as (H1 & H2 & H3 & H4).
    unfold spec_matchScore, spec_scoreSum. lia.
  - rewrite (calculateMatchScore_overflows _ _ _ _ Hi Ha Hr Hg Hover) in H.
    discriminate H.
Qed.

Lemma determineProductId_range income assets riskScore goals :
  1 <= determineProductId income assets riskScore goals <= 3.
Proof.
  rewrite determineProductId_spec. unfold spec_productId.
  repeat case_decide; lia.
Qed.

(** X5: whatever [compute] returns is a product id from 1 to 3 and a match
    score from 0 to 100. *)
Theorem compute_in_range income assets riskScore goals p m :
  is_uint32 income -> is_uint32 assets ->
  is_uint32 riskScore -> is_uint32 goals ->
  compute income assets riskScore goals = Ok (p, m) ->
  1 <= p <= 3 /\ 0 <= m <= 100.
Proof.
  intros Hi Ha Hr Hg H. unfold compute in H.
  destruct (calculateMatchScore income assets riskScore goals) as [m'|] eqn:Hm;
    cbn in H; [| discriminate H].
  injection H as <- <-. split.
  - apply determineProductId_range.
  - by apply (calculateMatchScore_range income assets riskScore goals).
Qed.

(** ** Acceptance of the callbacks *)

Section Acceptance.

Variable checkSignatures : Z -> list byte -> list byte -> bool.
Variable asEuint32 : Z -> euint32.

#[local] Abbreviation exec2 := (exec checkSignatures asEuint32).
#[local] Abbreviation run2 := (run checkSignatures asEuint32).
#[local] Abbreviation dispatch2 := (dispatch checkSignatures asEuint32).

(** X6: [generateRecommendation] is accepted exactly when the request id has
    a recorded profile, the proof verifies, the cleartexts have at least 128
    bytes whose first four 32-byte words each fit [uint32], the
    recommendation counter is below its maximum, and the score sum of the
    four values fits [uint32].  In every other case it reverts. *)
Theorem generateRecommendation_accepted_iff now st requestId cleartexts proof :
  let word i := be_to_Z (abi_word cleartexts i) in
  (exists st' out,
     generateRecommendation checkSignatures asEuint32 now st requestId
       cleartexts proof = Ok (st', out))
  <->
  mread 0 (requestToProfileId st) requestId <> 0 /\
  checkSignatures requestId cleartexts proof = true /\
  (128 <= length cleartexts)%nat /\
  word 0%nat <= MAX_UINT32 /\ word 1%nat <= MAX_UINT32 /\
  word 2%nat <= MAX_UINT32 /\ word 3%nat <= MAX_UINT32 /\
  recommendationCount st < MAX_UINT256 /\
  spec_scoreSum (word 0%nat) (word 1%nat) (word 2%nat) (word 3%nat)
  <= MAX_UINT32.
Proof.
  cbn zeta. split.
  - intros (st' & out & H). apply generateRecommendation_Ok in H.
    destruct H as (i & a & r & g & m & Hlive & Hsig & Hdec & Hrc & Hm & _).
    pose proof (abi_decode_uint32s_range _ _ _ Hdec) as [_ Hrange].
    apply abi_decode_uint32s_Ok in Hdec as (Hlen & Hws & Hmax).
    cbn in Hws. injection Hws as -> -> -> ->.
    apply Forall_cons in Hrange as [Hi Hrange].
    apply Forall_cons in Hrange as [Ha Hrange].
    apply Forall_cons in Hrange as [Hr Hrange].
    apply Forall_cons in Hrange as [Hg _].
    repeat split; try done; try apply Hi; try apply Ha; try apply Hr;
      try apply Hg; try lia.
    destruct (Z.le_gt_cases
      (spec_scoreSum (be_to_Z (abi_word cleartexts 0))
         (be_to_Z (abi_word cleartexts 1)) (be_to_Z (abi_word cleartexts 2))
         (be_to_Z (abi_word cleartexts 3))) MAX_UINT32) as [|Hover]; [done |].
    rewrite (calculateMatchScore_overflows _ _ _ _ Hi Ha Hr Hg Hover) in Hm.
    discriminate Hm.
  - intros (Hlive & Hsig & Hlen & H0 & H1 & H2 & H3 & Hrc & Hsum).
    unfold generateRecommendation.
    apply Z.eqb_neq in Hlive. rewrite Hlive, Hsig.
    rewrite (abi_decode_uint32s_complete 4 cleartexts)
      by (cbn; repeat constructor; done || lia).
    cbn [map seq]. unfold checked_add, require. cbn.
    destruct (Z.leb_spec (recommendationCount st + 1) MAX_UINT256); [| lia].
    cbn.
    rewrite calculateMatchScore_fits;
      try (split; [apply be_to_Z_nonneg | done]); [| done].
    cbn. eauto.
Qed.

(** X8: a callback that passes the pending-entry check (and, for a reveal,
    the not-yet-revealed check) and the proof check, but carries fewer bytes
    than its tuple needs (128 for a profile, 64 for a result), reverts in
    [abi.decode] and changes nothing.  This includes empty cleartexts. *)
Theorem callback_with_short_payload now st requestId cleartexts proof :
  checkSignatures requestId cleartexts proof = true ->
  ((length cleartexts < 128)%nat ->
   mread 0 (requestToProfileId st) requestId <> 0 ->
   generateRecommendation checkSignatures asEuint32 now st requestId
     cleartexts proof = Err DecodeFailure /\
   exec2 now st (GenerateRecommendation requestId cleartexts proof)
   = (st, [])) /\
  ((length cleartexts < 64)%nat ->
   mread 0 (recommendationRequestToId st) requestId <> 0 ->
   revealed st (mread 0 (recommendationRequestToId st) requestId) = false ->
   decryptRecommendation checkSignatures st requestId cleartexts proof
   = Err DecodeFailure /\
   exec2 now st (DecryptRecommendation requestId cleartexts proof)
   = (st, [])).
Proof.
  intros Hsig. split.
  - intros Hlen Hlive.
    assert (H : generateRecommendation checkSignatures asEuint32 now st
                  requestId cleartexts proof = Err DecodeFailure).
    { unfold generateRecommendation. apply Z.eqb_neq in Hlive.
      rewrite Hlive, Hsig. unfold abi_decode_uint32s, require.
      destruct (Nat.leb_spec (32 * 4) (length cleartexts)); [lia | done]. }
    split; [done |]. by apply (exec_Err _ _ _ _ _ DecodeFailure).
  - intros Hlen Hlive Hrev.
    assert (H : decryptRecommendation checkSignatures st requestId
                  cleartexts proof = Err DecodeFailure).
    { unfold decryptRecommendation. apply Z.eqb_neq in Hlive.
      unfold revealed in Hrev.
      rewrite Hlive, Hrev, Hsig. unfold abi_decode_uint32s, require.
      destruct (Nat.leb_spec (32 * 2) (length cleartexts)); [lia | done]. }
    split; [done |]. by apply (exec_Err _ _ _ _ _ DecodeFailure).
Qed.

End Acceptance.

(** ** Invariants over sequences of transactions *)

Section Invariants.

Variable checkSignatures : Z -> list byte -> list byte -> bool.
Variable asEuint32 : Z -> euint32.

#[local] Abbreviation exec3 := (exec checkSignatures asEuint32).
#[local] Abbreviation run3 := (run checkSignatures asEuint32).
#[local] Abbreviation dispatch3 := (dispatch checkSignatures asEuint32).

(** Induction over a sequence of transactions for a property of the
    storage. *)
Lemma run_invariant (P : State -> Prop) :
  (forall now st c, P st -> P (fst (exec3 now st c))) ->
  forall txs st, P st -> P (fst (run3 st txs)).
Proof.
  intros Hstep. induction txs as [|[now c] rest IH]; intros st Hst; [done |].
  rewrite run_cons. cbn [fst]. by apply IH, Hstep.
Qed.

Lemma initial_registry_dense : registry_dense initial.
Proof.
  unfold registry_dense. cbn.
  repeat split; try done; intros id Hid; try lia; apply lookup_empty.
Qed.

Lemma exec_registry_dense now st c :
  registry_dense st -> registry_dense (fst (exec3 now st c)).
Proof.
  intros (Hpc & Hrc & Hp & Hpn & Hr & Hrn).
  destruct (exec_cases checkSignatures asEuint32 now st c)
    as [(e & _ & ->)|(st' & out & Hd & ->)]; cbn [fst]; [done |].
  destruct c; cbn in Hd.
  - apply submitEncryptedProfile_Ok in Hd.
    destruct Hd as (_ & Epc & Erc & Ep & Er & Ed & _).
    unfold registry_dense. rewrite Epc, Erc, Ep, Er, Ed.
    repeat split; try lia; try done.
    + intros id Hid. destruct (decide (id = profileCount st + 1)) as [->|Hne].
      * rewrite lookup_insert_eq. by eexists.
      * rewrite lookup_insert_ne by done. apply Hp. lia.
    + intros id Hid. rewrite lookup_insert_ne by lia. apply Hpn. lia.
  - injection Hd as <- _. done.
  - apply generateRecommendation_Ok in Hd.
    destruct Hd as (i & a & r & g & m & Hlive & _ & _ & _ & _ & Epc & Erc & Ep
                    & Er & Ed & _).
    unfold registry_dense. rewrite Epc, Erc, Ep, Er, Ed.
    repeat split; try lia; try done.
    + intros id Hid.
      destruct (decide (id = recommendationCount st + 1)) as [->|Hne].
      * rewrite !lookup_insert_eq. by do 2 eexists.
      * rewrite !lookup_insert_ne by done. apply Hr. lia.
    + intros id Hid. rewrite lookup_insert_ne by lia. apply Hrn. lia.
  - apply requestRecommendationDecryption_Ok in Hd.
    destruct Hd as (_ & Epc & Erc & Ep & Er & Ed & _).
    unfold registry_dense. by rewrite Epc, Erc, Ep, Er, Ed.
  - apply decryptRecommendation_Ok in Hd.
    destruct Hd as (p & m & _ & _ & _ & _ & Epc & Erc & Ep & Er & Ed & _).
    unfold registry_dense. rewrite Epc, Erc, Ep, Er, Ed.
    repeat split; try lia; try done.
    intros id Hid. destruct (Hr id Hid) as (r & d & ? & ? & ? & ?).
    destruct (decide (mread 0 (recommendationRequestToId st) requestId = id))
      as [->|Hne].
    + rewrite lookup_insert_eq. by do 2 eexists.
    + rewrite lookup_insert_ne by done. by do 2 eexists.
Qed.

(** X1: in every storage reached from deployment, the profiles occupy
    exactly the ids from 1 to [profileCount] and each carries its own id;
    the recommendations occupy exactly the ids from 1 to
    [recommendationCount], each carries its own id and a profile id other
    than 0, and each has a result record. *)
Theorem reachable_registry_dense txs :
  registry_dense (fst (run3 initial txs)).
Proof.
  apply run_invariant; [apply exec_registry_dense | apply initial_registry_dense].
Qed.

Lemma exec_profileCount_mono now st c :
  profileCount st <= profileCount (fst (exec3 now st c)).
Proof.
  destruct (exec_counters checkSignatures asEuint32 now st c)
    as [[[-> _]|[-> _]] _]; lia.
Qed.

Lemma exec_profile_of_existing now st c id :
  id <= profileCount st ->
  encryptedProfiles (fst (exec3 now st c)) !! id = encryptedProfiles st !! id.
Proof.
  intros Hid.
  destruct (exec_cases checkSignatures asEuint32 now st c)
    as [(e & _ & ->)|(st' & out & Hd & ->)]; cbn [fst]; [done |].
  destruct c; cbn in Hd.
  - apply submitEncryptedProfile_Ok in Hd.
    destruct Hd as (_ & _ & _ & -> & _). apply lookup_insert_ne. lia.
  - by injection Hd as <- _.
  - apply generateRecommendation_Ok in Hd.
    by destruct Hd as (? & ? & ? & ? & ? & _ & _ & _ & _ & _ & _ & _ & -> & _).
  - apply requestRecommendationDecryption_Ok in Hd.
    by destruct Hd as (_ & _ & _ & -> & _).
  - apply decryptRecommendation_Ok in Hd.
    by destruct Hd as (? & ? & _ & _ & _ & _ & _ & _ & -> & _).
Qed.

Lemma run_profile_of_existing txs : forall st id,
  id <= profileCount st ->
  encryptedProfiles (fst (run3 st txs)) !! id = encryptedProfiles st !! id.
Proof.
  induction txs as [|[now c] rest IH]; intros st id Hid; [done |].
  rewrite run_cons. cbn [fst]. rewrite IH.
  - by apply exec_profile_of_existing.
  - pose proof (exec_profileCount_mono now st c). lia.
Qed.

Lemma run_recommendation_of_existing txs : forall st id,
  id <= recommendationCount st ->
  encryptedRecommendations (fst (run3 st txs)) !! id
  = encryptedRecommendations st !! id.
Proof.
  induction txs as [|[now c] rest IH]; intros st id Hid; [done |].
  rewrite run_cons. cbn [fst]. rewrite IH.
  - by apply exec_recommendation_of_existing.
  - pose proof (exec_recommendationCount_mono checkSignatures asEuint32
                  now st c). lia.
Qed.

(** X2: a submitted profile is read back as submitted, under the id the
    submission assigned, after any further transactions: the four handles
    and the timestamp of the submission, never changed by any call. *)
Theorem submitted_profile_is_kept now st income assets riskTolerance goals
    st1 out txs :
  submitEncryptedProfile now st income assets riskTolerance goals
  = Ok (st1, out) ->
  out = [ProfileSubmitted (profileCount st + 1) now] /\
  getEncryptedProfile (fst (run3 st1 txs)) (profileCount st + 1)
  = (income, assets, riskTolerance, goals, now).
Proof.
  intros H. apply submitEncryptedProfile_Ok in H.
  destruct H as (_ & Epc & _ & Ep & _ & _ & _ & _ & ->).
  split; [done |].
  unfold getEncryptedProfile, mread.
  rewrite run_profile_of_existing by lia.
  by rewrite Ep, lookup_insert_eq.
Qed.

(** X3: a generated recommendation is read back unchanged after any further
    transactions, a reveal included: the handles of the product id and match
    score that [compute] gave for the decoded profile, the profile id the
    request was recorded for, and the timestamp of the callback. *)
Theorem generated_recommendation_is_kept now st requestId cleartexts proof
    st1 out txs :
  generateRecommendation checkSignatures asEuint32 now st requestId
    cleartexts proof = Ok (st1, out) ->
  exists income assets riskScore goals p m,
    abi_decode_uint32s 4 cleartexts = Ok [income; assets; riskScore; goals] /\
    compute income assets riskScore goals = Ok (p, m) /\
    out = [RecommendationGenerated (recommendationCount st + 1)] /\
    getEncryptedRecommendation (fst (run3 st1 txs)) (recommendationCount st + 1)
    = (asEuint32 p, asEuint32 m, mread 0 (requestToProfileId st) requestId,
       now).
Proof.
  intros H. apply generateRecommendation_Ok in H.
  destruct H as (i & a & r & g & m & _ & _ & Hdec & _ & Hm & _ & Erc & _ & Er
                 & _ & _ & _ & ->).
  exists i, a, r, g, (determineProductId i a r g), m.
  repeat split; [done | | ].
  - unfold compute. by rewrite Hm.
  - unfold getEncryptedRecommendation, mread.
    rewrite run_recommendation_of_existing by lia.
    by rewrite Er, lookup_insert_eq.
Qed.

(** ** Consecutive identifiers *)

Lemma ids_after_cons first n :
  first + 1 :: ids_after (first + 1) n = ids_after first (S n).
Proof.
  unfold ids_after. cbn [seq map]. f_equal; try lia.
  rewrite <- (seq_shift n 1), map_map. apply map_ext. intros k. lia.
Qed.

(** What one transaction does to the counters and the log, by kind and
    outcome: an accepted submission moves the profile counter by one and
    emits the new id, every other transaction leaves it alone and emits no
    [ProfileSubmitted]; likewise for an accepted profile callback and the
    recommendation counter. *)
Lemma exec_counts now st c :
  let st' := fst (exec3 now st c) in
  let out := snd (exec3 now st c) in
  (if is_submission c && accepted checkSignatures asEuint32 now st c
   then profileCount st' = profileCount st + 1 /\
        submittedIds out = [profileCount st + 1]
   else profileCount st' = profileCount st /\ submittedIds out = []) /\
  (if is_profile_callback c && accepted checkSignatures asEuint32 now st c
   then recommendationCount st' = recommendationCount st + 1 /\
        generatedIds out = [recommendationCount st + 1]
   else recommendationCount st' = recommendationCount st /\
        generatedIds out = []).
Proof.
  cbn zeta. unfold accepted.
  destruct (exec_cases checkSignatures asEuint32 now st c)
    as [(e & -> & ->)|(st' & out & Hd & ->)]; cbn [fst snd].
  - rewrite !andb_false_r. by cbn.
  - rewrite Hd, !andb_true_r. destruct c; cbn in Hd; cbn [is_submission
      is_profile_callback].
    + apply submitEncryptedProfile_Ok in Hd.
      by destruct Hd as (_ & -> & -> & _ & _ & _ & _ & _ & ->).
    + by injection Hd as <- <-.
    + apply generateRecommendation_Ok in Hd.
      by destruct Hd as (? & ? & ? & ? & ? & _ & _ & _ & _ & _ & -> & -> & _
                         & _ & _ & _ & _ & ->).
    + apply requestRecommendationDecryption_Ok in Hd.
      by destruct Hd as (_ & -> & -> & _ & _ & _ & _ & _ & ->).
    + apply decryptRecommendation_Ok in Hd.
      by destruct Hd as (? & ? & _ & _ & _ & _ & -> & -> & _ & _ & _ & _ & _
                         & ->).
Qed.

(** X4: identifiers are handed out without gaps, one per accepted call.
    Over every sequence of transactions, with [n] the number of submissions
    in it that are accepted, the ids in the [ProfileSubmitted] events are the
    [n] consecutive integers after the starting profile counter and the
    counter ends at its starting value plus [n]; the same holds of the
    accepted profile callbacks, the [RecommendationGenerated] events and the
    recommendation counter. *)
Theorem ids_are_consecutive st txs :
  let st' := fst (run3 st txs) in
  let out := snd (run3 st txs) in
  let n := count_accepted is_submission checkSignatures asEuint32 st txs in
  let k := count_accepted is_profile_callback checkSignatures asEuint32
             st txs in
  (submittedIds out = ids_after (profileCount st) n /\
   profileCount st' = profileCount st + Z.of_nat n) /\
  (generatedIds out = ids_after (recommendationCount st) k /\
   recommendationCount st' = recommendationCount st + Z.of_nat k).
Proof.
  revert st. induction txs as [|[now c] rest IH]; intros st.
  - cbn. split; split; (done || lia).
  - rewrite run_cons. cbn [fst snd count_accepted].
    rewrite submittedIds_app, generatedIds_app.
    specialize (IH (fst (exec3 now st c))).
    destruct IH as [[Hps Hpc] [Hrs Hrc]].
    destruct (exec_counts now st c) as [Hp Hr].
    split.
    + destruct (is_submission c && accepted checkSignatures asEuint32 now st c);
        destruct Hp as [Ep ->]; cbn [app]; rewrite Ep in *.
      * rewrite Hps, ids_after_cons. split; [done | lia].
      * done.
    + destruct (is_profile_callback c
                && accepted checkSignatures asEuint32 now st c);
        destruct Hr as [Er ->]; cbn [app]; rewrite Er in *.
      * rewrite Hrs, ids_after_cons. split; [done | lia].
      * done.
Qed.

(** ** After the reveal *)

Lemma exec_revealed_result_kept now st c id :
  id <= recommendationCount st ->
  revealed st id = true ->
  decryptedResults (fst (exec3 now st c)) !! id = decryptedResults st !! id.
Proof.
  intros Hid Hrev.
  destruct (exec_result_of_existing checkSignatures asEuint32 now st c id Hid)
    as [Heq|(? & ? & ? & _ & _ & _ & Hfalse & _)]; [done |].
  rewrite Hrev in Hfalse. discriminate Hfalse.
Qed.

Lemma run_revealed_result_kept txs : forall st id,
  id <= recommendationCount st ->
  revealed st id = true ->
  decryptedResults (fst (run3 st txs)) !! id = decryptedResults st !! id.
Proof.
  induction txs as [|[now c] rest IH]; intros st id Hid Hrev; [done |].
  rewrite run_cons. cbn [fst]. rewrite IH.
  - by apply exec_revealed_result_kept.
  - pose proof (exec_recommendationCount_mono checkSignatures asEuint32
                  now st c). lia.
  - by apply exec_revealed_stays.
Qed.

(** X10: a revealed result is final.  Once the reveal callback for an
    existing recommendation was accepted, [getDecryptedResult] returns the
    decoded product id and match score with [isRevealed = true], and goes on
    returning exactly that after any further transactions. *)
Theorem revealed_result_is_final st requestId cleartexts proof st1 out txs :
  1 <= mread 0 (recommendationRequestToId st) requestId
    <= recommendationCount st ->
  decryptRecommendation checkSignatures st requestId cleartexts proof
  = Ok (st1, out) ->
  exists p m,
    abi_decode_uint32s 2 cleartexts = Ok [p; m] /\
    getDecryptedResult (fst (run3 st1 txs))
      (mread 0 (recommendationRequestToId st) requestId)
    = (p, m, true).
Proof.
  intros Hid H. apply decryptRecommendation_Ok in H.
  destruct H as (p & m & _ & _ & _ & Hdec & _ & Erc & _ & _ & Ed & _).
  exists p, m. split; [done |].
  set (t := mread 0 (recommendationRequestToId st) requestId) in *.
  unfold getDecryptedResult, mread.
  rewrite run_revealed_result_kept.
  - by rewrite Ed, lookup_insert_eq.
  - lia.
  - unfold revealed. by rewrite Ed, mread_insert_eq.
Qed.

(** ** What the log accounts for *)

Lemma mread_nonzero (m : gmap Z Z) (k : Z) :
  mread 0 m k <> 0 -> m !! k = Some (mread 0 m k).
Proof. unfold mread. by destruct (m !! k). Qed.

Lemma exec_log_accounts now st c log :
  log_accounts st log ->
  log_accounts (fst (exec3 now st c)) (log ++ snd (exec3 now st c)).
Proof.
  intros (Hreq & Hrec & Hrev).
  assert (Hweak : forall out, log_accounts st (log ++ out)).
  { intros out. repeat split.
    - intros q pid H. apply in_or_app. left. by apply Hreq.
    - intros id r H. destruct (Hrec id r H) as [q Hq].
      exists q. apply in_or_app. by left.
    - intros id H. apply in_or_app. left. by apply Hrev. }
  destruct (exec_cases checkSignatures asEuint32 now st c)
    as [(e & _ & ->)|(st' & out & Hd & ->)]; cbn [fst snd]; [apply Hweak |].
  destruct (Hweak out) as (Hreq' & Hrec' & Hrev').
  destruct c; cbn in Hd.
  - apply submitEncryptedProfile_Ok in Hd.
    destruct Hd as (_ & _ & _ & _ & Er & Ed & Eq & _).
    unfold log_accounts, revealed. by rewrite Er, Ed, Eq.
  - injection Hd as <- <-. unfold log_accounts, revealed. cbn.
    repeat split.
    + intros q pid H. destruct (decide (reqId = q)) as [->|Hne].
      * rewrite lookup_insert_eq in H. injection H as ->.
        apply in_or_app. right. cbn. auto.
      * rewrite lookup_insert_ne in H by done.
        apply in_or_app. left. by apply Hreq.
    + intros id r H. destruct (Hrec id r H) as [q Hq].
      exists q. apply in_or_app. by left.
    + intros id H. apply in_or_app. left. by apply Hrev.
  - apply generateRecommendation_Ok in Hd.
    destruct Hd as (i & a & r & g & m & Hlive & _ & _ & _ & _ & _ & _ & _ & Er
                    & Ed & Eq & _ & _).
    unfold log_accounts, revealed. rewrite Er, Ed, Eq. repeat split.
    + done.
    + intros id r' H.
      destruct (decide (recommendationCount st + 1 = id)) as [<-|Hne].
      * rewrite lookup_insert_eq in H. injection H as <-. cbn.
        exists requestId. apply Hreq'. by apply mread_nonzero.
      * rewrite lookup_insert_ne in H by done. by apply (Hrec' id).
    + intros id H. rewrite mread_insert in H. case_decide.
      * discriminate H.
      * by apply Hrev'.
  - apply requestRecommendationDecryption_Ok in Hd.
    destruct Hd as (_ & _ & _ & _ & Er & Ed & Eq & _).
    unfold log_accounts, revealed. by rewrite Er, Ed, Eq.
  - apply decryptRecommendation_Ok in Hd.
    destruct Hd as (p & m & _ & _ & _ & _ & _ & _ & _ & Er & Ed & Eq & _ & ->).
    unfold log_accounts, revealed. rewrite Er, Ed, Eq. repeat split.
    + done.
    + done.
    + intros id H. rewrite mread_insert in H. case_decide as Hid.
      * subst id. apply in_or_app. right. cbn. auto.
      * by apply Hrev'.
Qed.

Lemma run_log_accounts txs : forall st log,
  log_accounts st log ->
  log_accounts (fst (run3 st txs)) (log ++ snd (run3 st txs)).
Proof.
  induction txs as [|[now c] rest IH]; intros st log H.
  - cbn. by rewrite app_nil_r.
  - rewrite run_cons. cbn [fst snd]. rewrite app_assoc.
    by apply IH, exec_log_accounts.
Qed.

Lemma initial_log_accounts : log_accounts initial [].
Proof.
  repeat split.
  - intros q pid H. cbn in H. by rewrite lookup_empty in H.
  - intros id r H. cbn in H. by rewrite lookup_empty in H.
  - intros id H. discriminate H.
Qed.


(** X12: every stored recommendation answers a request.  In every storage
    reached from deployment, the profile id a stored recommendation carries
    is one for which [requestFinancialRecommendation] was called: the log
    holds a [RecommendationRequested] with that profile id.  (The contract
    does not check that a profile is stored under it.) *)
Theorem recommendation_answers_a_request txs id r :
  encryptedRecommendations (fst (run3 initial txs)) !! id = Some r ->
  exists requestId,
    In (RecommendationRequested requestId (rec_profileId r))
       (snd (run3 initial txs)).
Proof.
  destruct (run_log_accounts txs initial [] initial_log_accounts)
    as (_ & H & _).
  apply H.
Qed.

(** ** Results before the reveal *)

Lemma exec_unrevealed_consistent now st c :
  unrevealed_consistent asEuint32 st ->
  unrevealed_consistent asEuint32 (fst (exec3 now st c)).
Proof.
  intros Hinv.
  destruct (exec_cases checkSignatures asEuint32 now st c)
    as [(e & _ & ->)|(st' & out & Hd & ->)]; cbn [fst]; [done |].
  destruct c; cbn in Hd.
  - apply submitEncryptedProfile_Ok in Hd.
    destruct Hd as (_ & _ & Erc & _ & Er & Ed & _).
    unfold unrevealed_consistent, revealed. by rewrite Erc, Er, Ed.
  - by injection Hd as <- _.
  - apply generateRecommendation_Ok in Hd.
    destruct Hd as (i & a & r & g & m & _ & _ & Hdec & _ & Hm & _ & Erc & _
                    & Er & Ed & _).
    apply abi_decode_uint32s_range in Hdec as [_ Hrange].
    apply Forall_cons in Hrange as [Hi Hrange].
    apply Forall_cons in Hrange as [Ha Hrange].
    apply Forall_cons in Hrange as [Hr Hrange].
    apply Forall_cons in Hrange as [Hg _].
    unfold unrevealed_consistent, revealed. rewrite Erc, Er, Ed.
    intros id Hid Hrev.
    destruct (decide (recommendationCount st + 1 = id)) as [<-|Hne].
    + rewrite !lookup_insert_eq. do 2 eexists. repeat split; cbn; try done.
      * apply determineProductId_range.
      * apply determineProductId_range.
      * by apply (calculateMatchScore_range i a r g).
      * by apply (calculateMatchScore_range i a r g).
    + rewrite !lookup_insert_ne by done.
      rewrite mread_insert_ne in Hrev by done.
      apply Hinv; [lia | done].
  - apply requestRecommendationDecryption_Ok in Hd.
    destruct Hd as (_ & _ & Erc & _ & Er & Ed & _).
    unfold unrevealed_consistent, revealed. by rewrite Erc, Er, Ed.
  - apply decryptRecommendation_Ok in Hd.
    destruct Hd as (p & m & _ & _ & _ & _ & _ & Erc & _ & Er & Ed & _).
    unfold unrevealed_consistent, revealed. rewrite Erc, Er, Ed.
    intros id Hid Hrev. rewrite mread_insert in Hrev. case_decide as Hne.
    + discriminate Hrev.
    + rewrite lookup_insert_ne by done. by apply Hinv.
Qed.

(** X13: until it is revealed, the public result record of a recommendation
    holds exactly the plaintext whose trivial encryption the recommendation
    stores.  In every storage reached from deployment, for every existing
    recommendation not flagged revealed, [encryptedProductId] and
    [encryptedMatchScore] are [asEuint32] of the record's [productId] and
    [matchScore], the product id is from 1 to 3 and the match score from 0
    to 100. *)
Theorem unrevealed_result_matches_handles txs id :
  1 <= id <= recommendationCount (fst (run3 initial txs)) ->
  revealed (fst (run3 initial txs)) id = false ->
  exists r d,
    encryptedRecommendations (fst (run3 initial txs)) !! id = Some r /\
    decryptedResults (fst (run3 initial txs)) !! id = Some d /\
    encryptedProductId r = asEuint32 (productId d) /\
    encryptedMatchScore r = asEuint32 (matchScore d) /\
    1 <= productId d <= 3 /\ 0 <= matchScore d <= 100.
Proof.
  apply (run_invariant (unrevealed_consistent asEuint32)).
  - apply exec_unrevealed_consistent.
  - intros i Hi. cbn in Hi. lia.
Qed.

(** ** Reveal callbacks for different recommendations *)

Lemma State_eq (s1 s2 : State) :
  profileCount s1 = profileCount s2 ->
  recommendationCount s1 = recommendationCount s2 ->
  encryptedProfiles s1 = encryptedProfiles s2 ->
  encryptedRecommendations s1 = encryptedRecommendations s2 ->
  decryptedResults s1 = decryptedResults s2 ->
  requestToProfileId s1 = requestToProfileId s2 ->
  recommendationRequestToId s1 = recommendationRequestToId s2 ->
  s1 = s2.
Proof. destruct s1, s2. cbn. by intros -> -> -> -> -> -> ->. Qed.

(** The outcome of a reveal callback depends on the storage only through
    the pending entry of its request id and the flag of its target. *)
Lemma decryptRecommendation_frame st st' q ct pf :
  recommendationRequestToId st' = recommendationRequestToId st ->
  revealed st' (mread 0 (recommendationRequestToId st) q)
  = revealed st (mread 0 (recommendationRequestToId st) q) ->
  match decryptRecommendation checkSignatures st q ct pf with
  | Err e => decryptRecommendation checkSignatures st' q ct pf = Err e
  | Ok (s, o) =>
      exists s' d,
        decryptRecommendation checkSignatures st' q ct pf = Ok (s', o) /\
        decryptedResults s
        = <[mread 0 (recommendationRequestToId st) q := d]>
            (decryptedResults st) /\
        decryptedResults s'
        = <[mread 0 (recommendationRequestToId st) q := d]>
            (decryptedResults st') /\
        profileCount s' = profileCount st' /\
        recommendationCount s' = recommendationCount st' /\
        encryptedProfiles s' = encryptedProfiles st' /\
        encryptedRecommendations s' = encryptedRecommendations st' /\
        requestToProfileId s' = requestToProfileId st' /\
        recommendationRequestToId s' = recommendationRequestToId st'
  end.
Proof.
  intros Hreq Hrev. unfold revealed in Hrev.
  unfold decryptRecommendation. rewrite Hreq, Hrev.
  destruct (negb (_ =? 0)); cbn; [| done].
  destruct (negb (isRevealed _)); cbn; [| done].
  destruct (checkSignatures q ct pf); cbn; [| done].
  destruct (abi_decode_uint32s 2 ct) as [[|p [|m [|? ?]]]|]; cbn; try done.
  by do 2 eexists.
Qed.

(** X14: reveal callbacks for different recommendations do not interfere.
    Two reveal callbacks whose pending entries name different recommendations
    leave the same storage whichever is delivered first: each is accepted or
    rejected as it would be alone. *)
Theorem reveal_callbacks_commute st now1 q1 ct1 pf1 now2 q2 ct2 pf2 :
  mread 0 (recommendationRequestToId st) q1
  <> mread 0 (recommendationRequestToId st) q2 ->
  fst (run3 st [(now1, DecryptRecommendation q1 ct1 pf1);
                (now2, DecryptRecommendation q2 ct2 pf2)])
  = fst (run3 st [(now2, DecryptRecommendation q2 ct2 pf2);
                  (now1, DecryptRecommendation q1 ct1 pf1)]).
Proof.
  intros Hne. rewrite !run_cons. cbn [run fst]. unfold exec, dispatch.
  set (t1 := mread 0 (recommendationRequestToId st) q1) in *.
  set (t2 := mread 0 (recommendationRequestToId st) q2) in *.
  destruct (decryptRecommendation checkSignatures st q1 ct1 pf1)
    as [[sa oa]|ea] eqn:Ea;
  destruct (decryptRecommendation checkSignatures st q2 ct2 pf2)
    as [[sb ob]|eb] eqn:Eb; cbn [fst].
  - pose proof Ea as Ia. apply decryptRecommendation_Ok in Ia.
    destruct Ia as (pa & ma & _ & _ & _ & _ & Apc & Arc & Ap & Ar & Ad & Aq
                    & Aqq & _).
    pose proof Eb as Ib. apply decryptRecommendation_Ok in Ib.
    destruct Ib as (pb & mb & _ & _ & _ & _ & Bpc & Brc & Bp & Br & Bd & Bq
                    & Bqq & _).
    fold t1 in Ad. fold t2 in Bd.
    pose proof (decryptRecommendation_frame st sa q2 ct2 pf2 Aqq) as Fb.
    rewrite Eb in Fb. fold t2 in Fb.
    destruct Fb as (sab & db & -> & Hdb & Hsab & ? & ? & ? & ? & ? & ?).
    { unfold revealed. by rewrite Ad, mread_insert_ne. }
    pose proof (decryptRecommendation_frame st sb q1 ct1 pf1 Bqq) as Fa.
    rewrite Ea in Fa. fold t1 in Fa.
    destruct Fa as (sba & da & -> & Hda & Hsba & ? & ? & ? & ? & ? & ?).
    { unfold revealed. by rewrite Bd, mread_insert_ne. }
    cbn [fst]. apply State_eq; try congruence.
    rewrite Hsab, Hsba, Hda, Hdb. by apply insert_insert_ne.
  - pose proof Ea as Ia. apply decryptRecommendation_Ok in Ia.
    destruct Ia as (pa & ma & _ & _ & _ & _ & _ & _ & _ & _ & Ad & _ & Aqq & _).
    fold t1 in Ad.
    pose proof (decryptRecommendation_frame st sa q2 ct2 pf2 Aqq) as Fb.
    rewrite Eb in Fb. fold t2 in Fb. rewrite Fb.
    + cbn [fst]. by rewrite Ea.
    + unfold revealed. by rewrite Ad, mread_insert_ne.
  - pose proof Eb as Ib. apply decryptRecommendation_Ok in Ib.
    destruct Ib as (pb & mb & _ & _ & _ & _ & _ & _ & _ & _ & Bd & _ & Bqq & _).
    fold t2 in Bd.
    pose proof (decryptRecommendation_frame st sb q1 ct1 pf1 Bqq) as Fa.
    rewrite Ea in Fa. fold t1 in Fa. rewrite Eb. cbn [fst]. rewrite Fa.
    + done.
    + unfold revealed. by rewrite Bd, mread_insert_ne.
  - by rewrite Ea, Eb.
Qed.

(** ** The whole workflow *)

(** X15: the workflow end to end.  From any storage with room in both
    counters, for any four handles and any four plaintexts within [uint32]
    whose score sum fits: submitting the handles, requesting the
    recommendation, the oracle's answer with the encoded plaintexts,
    requesting the reveal, and the oracle's answer with the encoded result
    are all accepted.  The oracle is asked to decrypt first the four
    submitted handles and then the handles of the computed result, the six
    events come out in this order, and in the end [getDecryptedResult]
    returns the product id and match score of the specification's rule,
    revealed. *)
Theorem workflow_end_to_end st t1 t2 t3 t4 t5 h1 h2 h3 h4
    income assets riskScore goals q1 q2 pf1 pf2 :
  let pid := profileCount st + 1 in
  let rid := recommendationCount st + 1 in
  let p := spec_productId income assets riskScore goals in
  let m := spec_matchScore income assets riskScore goals in
  let txs :=
    [(t1, SubmitEncryptedProfile h1 h2 h3 h4);
     (t2, RequestFinancialRecommendation pid q1);
     (t3, GenerateRecommendation q1
            (abi_encode [income; assets; riskScore; goals]) pf1);
     (t4, RequestRecommendationDecryption rid q2);
     (t5, DecryptRecommendation q2 (abi_encode [p; m]) pf2)] in
  0 <= profileCount st < MAX_UINT256 ->
  0 <= recommendationCount st < MAX_UINT256 ->
  is_uint32 income -> is_uint32 assets ->
  is_uint32 riskScore -> is_uint32 goals ->
  spec_scoreSum income assets riskScore goals <= MAX_UINT32 ->
  checkSignatures q1 (abi_encode [income; assets; riskScore; goals]) pf1
  = true ->
  checkSignatures q2 (abi_encode [p; m]) pf2 = true ->
  snd (run3 st txs)
  = [ProfileSubmitted pid t1;
     RequestDecryption [h1; h2; h3; h4] generateRecommendation_selector q1;
     RecommendationRequested q1 pid;
     RecommendationGenerated rid;
     RequestDecryption [asEuint32 p; asEuint32 m]
       decryptRecommendation_selector q2;
     ResultDecrypted rid] /\
  getDecryptedResult (fst (run3 st txs)) rid = (p, m, true) /\
  getEncryptedProfile (fst (run3 st txs)) pid = (h1, h2, h3, h4, t1) /\
  getEncryptedRecommendation (fst (run3 st txs)) rid
  = (asEuint32 p, asEuint32 m, pid, t3).
Proof.
  cbn zeta. intros Hpc Hrc Hi Ha Hr Hg Hsum Hs1 Hs2.
  assert (Hd1 : abi_decode_uint32s 4
                  (abi_encode [income; assets; riskScore; goals])
                = Ok [income; assets; riskScore; goals]).
  { rewrite <- (app_nil_r (abi_encode _)).
    apply (abi_decode_encode_app [income; assets; riskScore; goals] []).
    repeat (constructor; [assumption |]). constructor. }
  assert (Hpm : is_uint32 (spec_productId income assets riskScore goals) /\
                is_uint32 (spec_matchScore income assets riskScore goals)).
  { destruct (scoreSum_parts _ _ _ _ Hi Ha Hr Hg) as (? & ? & ? & ?).
    unfold is_uint32, MAX_UINT32, spec_matchScore, spec_scoreSum,
      spec_productId in *.
    split; [repeat case_decide; lia | lia]. }
  assert (Hd2 : abi_decode_uint32s 2
                  (abi_encode [spec_productId income assets riskScore goals;
                               spec_matchScore income assets riskScore goals])
                = Ok [spec_productId income assets riskScore goals;
                      spec_matchScore income assets riskScore goals]).
  { rewrite <- (app_nil_r (abi_encode _)).
    apply (abi_decode_encode_app [_; _] []). destruct Hpm.
    repeat (constructor; [assumption |]). constructor. }
  assert (Hq1 : (profileCount st + 1 =? 0) = false) by lia.
  assert (Hq2 : (recommendationCount st + 1 =? 0) = false) by lia.
  unfold run, exec, dispatch.
  unfold submitEncryptedProfile, checked_add.
  destruct (Z.leb_spec (profileCount st + 1) MAX_UINT256); [| lia].
  cbn [mbind Result_bind].
  unfold requestFinancialRecommendation.
  cbn [profileCount recommendationCount encryptedProfiles
       encryptedRecommendations decryptedResults requestToProfileId
       recommendationRequestToId].
  unfold generateRecommendation.
  cbn [profileCount recommendationCount encryptedProfiles
       encryptedRecommendations decryptedResults requestToProfileId
       recommendationRequestToId].
  rewrite !mread_insert_eq, Hq1, Hs1, Hd1. unfold require, checked_add.
  cbn [negb mbind Result_bind].
  destruct (Z.leb_spec (recommendationCount st + 1) MAX_UINT256); [| lia].
  cbn [mbind Result_bind].
  rewrite (calculateMatchScore_fits _ _ _ _ Hi Ha Hr Hg Hsum).
  cbn [mbind Result_bind].
  rewrite determineProductId_spec.
  unfold requestRecommendationDecryption.
  cbn [profileCount recommendationCount encryptedProfiles
       encryptedRecommendations decryptedResults requestToProfileId
       recommendationRequestToId].
  rewrite !mread_insert_eq. unfold require.
  cbn [negb isRevealed mbind Result_bind encryptedProductId
       encryptedMatchScore].
  unfold decryptRecommendation.
  cbn [profileCount recommendationCount encryptedProfiles
       encryptedRecommendations decryptedResults requestToProfileId
       recommendationRequestToId].
  rewrite !mread_insert_eq, Hq2, Hs2, Hd2. unfold require.
  cbn [negb isRevealed mbind Result_bind fst snd app].
  unfold getDecryptedResult, getEncryptedProfile, getEncryptedRecommendation.
  cbn [profileCount recommendationCount encryptedProfiles
       encryptedRecommendations decryptedResults requestToProfileId
       recommendationRequestToId].
  rewrite !mread_insert_eq. cbn. done.
Qed.

End Invariants.

(** * Properties of the dashboard *)

Module DashboardFacts.
Import Dashboard.

Lemma ceil_div_bounds n :
  (n <= ceil_div n itemsPerPage * itemsPerPage)%nat /\
  (ceil_div n itemsPerPage * itemsPerPage < n + itemsPerPage)%nat.
Proof.
  unfold ceil_div, itemsPerPage.
  pose proof (Nat.div_mod_eq n 6).
  pose proof (Nat.mod_upper_bound n 6 ltac:(lia)).
  destruct (Nat.eqb_spec (n mod 6) 0); lia.
Qed.

Lemma paginatedProducts_succ {A} (l : list A) p :
  (1 <= p)%nat ->
  paginatedProducts l (S p) = paginatedProducts (drop itemsPerPage l) p.
Proof.
  intros Hp. unfold paginatedProducts, slice, itemsPerPage.
  rewrite drop_drop. f_equal; [lia |]. f_equal. lia.
Qed.

Lemma pages_concat {A} k : forall l : list A,
  (length l <= k * itemsPerPage)%nat ->
  concat (map (paginatedProducts l) (seq 1 k)) = l.
Proof.
  induction k as [|k IH]; intros l Hl.
  - destruct l; [done | cbn in Hl; lia].
  - cbn [seq map concat]. rewrite <- seq_shift, map_map.
    rewrite (map_ext_in _ (paginatedProducts (drop itemsPerPage l))).
    + rewrite IH by (rewrite length_drop; unfold itemsPerPage in *; lia).
      unfold paginatedProducts, slice, itemsPerPage. cbn [Nat.sub Nat.mul].
      rewrite drop_0. apply take_drop.
    + intros p Hp. apply in_seq in Hp. apply paginatedProducts_succ. lia.
Qed.

(** X16: the pages of the dashboard partition the filtered list.  The pages
    1 to [totalPages], one after the other, are the filtered products in
    order; every page has at most 6 products; and a page from 1 on is empty
    exactly when its number is above [totalPages], as happens when the
    filter shrinks the list under a page that stays selected. *)
Theorem pages_partition_products {A} (filteredProducts : list A) currentPage :
  (1 <= currentPage)%nat ->
  concat (map (paginatedProducts filteredProducts)
            (seq 1 (totalPages filteredProducts)))
  = filteredProducts /\
  (length (paginatedProducts filteredProducts currentPage) <= itemsPerPage)%nat /\
  (paginatedProducts filteredProducts currentPage = []
   <-> (totalPages filteredProducts < currentPage)%nat).
Proof.
  intros Hp.
  destruct (ceil_div_bounds (length filteredProducts)) as [Hlo Hhi].
  fold (totalPages filteredProducts) in Hlo, Hhi.
  split; [by apply pages_concat |]. split.
  - unfold paginatedProducts, slice. rewrite length_take. unfold itemsPerPage. lia.
  - unfold paginatedProducts, slice.
    assert (Hlen : length (take (currentPage * itemsPerPage
                                 - (currentPage - 1) * itemsPerPage)
                            (drop ((currentPage - 1) * itemsPerPage)
                               filteredProducts))
                   = Nat.min itemsPerPage
                       (length filteredProducts
                        - (currentPage - 1) * itemsPerPage)).
    { rewrite length_take, length_drop. unfold itemsPerPage. lia. }
    split.
    + intros Hnil. rewrite Hnil in Hlen. cbn [length] in Hlen.
      unfold itemsPerPage in *. lia.
    + intros Hlt. apply length_zero_iff_nil. rewrite Hlen.
      unfold itemsPerPage in *. lia.
Qed.

Section Counts.

Variable FinancialProduct : Type.
Variable status : FinancialProduct -> string.

(** X17: the three counters of the dashboard never add up to more than the
    number of products, and they add up to exactly that number if and only
    if every product's status is one of "approved", "pending" and
    "rejected". *)
Theorem status_counts_partition (products : list FinancialProduct) :
  (approvedCount _ status products + pendingCount _ status products
   + rejectedCount _ status products <= length products)%nat /\
  ((approvedCount _ status products + pendingCount _ status products
    + rejectedCount _ status products = length products)%nat
   <-> Forall (known_status _ status) products).
Proof.
  unfold approvedCount, pendingCount, rejectedCount.
  induction products as [|p ps [IHle IHiff]]; cbn [List.filter length].
  - split; [lia |]. split; [constructor | done].
  - assert (Hcase :
      (status p = "approved" /\ String.eqb (status p) "approved" = true /\
       String.eqb (status p) "pending" = false /\
       String.eqb (status p) "rejected" = false) \/
      (status p = "pending" /\ String.eqb (status p) "approved" = false /\
       String.eqb (status p) "pending" = true /\
       String.eqb (status p) "rejected" = false) \/
      (status p = "rejected" /\ String.eqb (status p) "approved" = false /\
       String.eqb (status p) "pending" = false /\
       String.eqb (status p) "rejected" = true) \/
      (~ known_status _ status p /\ String.eqb (status p) "approved" = false /\
       String.eqb (status p) "pending" = false /\
       String.eqb (status p) "rejected" = false)).
    { unfold known_status.
      destruct (String.eqb_spec (status p) "approved") as [->|H1];
        [left; by repeat split |].
      destruct (String.eqb_spec (status p) "pending") as [->|H2];
        [right; left; by repeat split |].
      destruct (String.eqb_spec (status p) "rejected") as [->|H3];
        [right; right; left; by repeat split |].
      right; right; right. repeat split; try done. tauto. }
    destruct Hcase as [(Hs & -> & -> & ->)|[(Hs & -> & -> & ->)|
                       [(Hs & -> & -> & ->)|(Hs & -> & -> & ->)]]];
      cbn [length]; (split; [lia |]).
    + rewrite Forall_cons. unfold known_status at 1. split.
      * intros H. split; [tauto |]. apply IHiff. lia.
      * intros [_ H]. apply IHiff in H. lia.
    + rewrite Forall_cons. unfold known_status at 1. split.
      * intros H. split; [tauto |]. apply IHiff. lia.
      * intros [_ H]. apply IHiff in H. lia.
    + rewrite Forall_cons. unfold known_status at 1. split.
      * intros H. split; [tauto |]. apply IHiff. lia.
      * intros [_ H]. apply IHiff in H. lia.
    + rewrite Forall_cons. split.
      * intros H. lia.
      * intros [H _]. done.
Qed.

End Counts.

End DashboardFacts.

(** * Worked instances of the further properties *)

(** The result payload, alone and followed by one more byte. *)
Lemma abi_decode_uint32s_shape_witness :
  (32 * 2 <= length resultA)%nat /\
  abi_decode_uint32s 2 resultA = Ok [3; 100] /\
  (length [3; 100] = 2%nat /\ Forall is_uint32 [3; 100]) /\
  abi_decode_uint32s 2 (resultA ++ [Byte.xff]) = abi_decode_uint32s 2 resultA.
Proof.
  assert (H1 : (32 * 2 <= length resultA)%nat) by (vm_compute; lia).
  assert (H2 : abi_decode_uint32s 2 resultA = Ok [3; 100]) by by_eval.
  split; [exact H1 |]. split; [exact H2 |].
  destruct (abi_decode_uint32s_shape 2 resultA [Byte.xff]) as [Hshape Htrail].
  split; [exact (Hshape _ H2) | exact (Htrail H1)].
Defined.

Lemma abi_decode_encode_witness :
  Forall is_uint32 [3; 100] /\
  abi_decode_uint32s 2 (abi_encode [3; 100] ++ [Byte.xff]) = Ok [3; 100].
Proof.
  assert (H : Forall is_uint32 [3; 100]).
  { repeat (constructor; [unfold is_uint32, MAX_UINT32; lia |]). constructor. }
  split; [exact H |]. exact (abi_decode_encode [3; 100] [Byte.xff] H).
Defined.

Lemma compute_in_range_witness :
  compute 50000 600000 80 1 = Ok (3, 100) /\ 1 <= 3 <= 3 /\ 0 <= 100 <= 100.
Proof.
  assert (H : compute 50000 600000 80 1 = Ok (3, 100)) by reflexivity.
  split; [exact H |].
  apply (compute_in_range 50000 600000 80 1 3 100);
    try (unfold is_uint32, MAX_UINT32; lia). exact H.
Defined.

(** Request 7 is pending for profile 1 and the oracle answers with
    [profileA]. *)
Lemma generateRecommendation_accepted_iff_witness :
  exists st' out,
    generateRecommendation demo_checkSignatures demo_asEuint32 102
      (fst (demo_run initial (firstn 2 (generated_with profileA)))) 7
      profileA good_proof = Ok (st', out).
Proof.
  apply (proj2 (generateRecommendation_accepted_iff demo_checkSignatures
                  demo_asEuint32 102
                  (fst (demo_run initial (firstn 2 (generated_with profileA))))
                  7 profileA good_proof)).
  repeat split; by_eval || (vm_compute; lia).
Defined.

(** Request 7 is pending and the oracle's answer carries no bytes. *)
Lemma callback_with_short_payload_witness :
  let st := fst (demo_run initial (firstn 2 (generated_with profileA))) in
  demo_checkSignatures 7 [] good_proof = true /\
  (length (@nil byte) < 128)%nat /\
  mread 0 (requestToProfileId st) 7 <> 0 /\
  generateRecommendation demo_checkSignatures demo_asEuint32 102 st 7 []
    good_proof = Err DecodeFailure.
Proof.
  cbn zeta.
  assert (H1 : demo_checkSignatures 7 [] good_proof = true) by reflexivity.
  assert (H2 : (length (@nil byte) < 128)%nat) by (cbn; lia).
  assert (H3 : mread 0 (requestToProfileId
             (fst (demo_run initial (firstn 2 (generated_with profileA))))) 7
           <> 0) by by_eval.
  repeat (split; [assumption |]).
  exact (proj1 (proj1 (callback_with_short_payload demo_checkSignatures
                         demo_asEuint32 102 _ 7 [] good_proof H1) H2 H3)).
Defined.

Lemma submitted_profile_is_kept_witness :
  getEncryptedProfile (fst (demo_run initial revealed_once)) 1
  = (11, 12, 13, 14, 100).
Proof.
  assert (H : submitEncryptedProfile 100 initial 11 12 13 14
              = Ok (fst (demo_run initial (firstn 1 revealed_once)),
                    [ProfileSubmitted 1 100])) by by_eval.
  exact (proj2 (submitted_profile_is_kept demo_checkSignatures demo_asEuint32
                  100 initial 11 12 13 14 _ _ (skipn 1 revealed_once) H)).
Defined.

Lemma generated_recommendation_is_kept_witness :
  exists income assets riskScore goals p m,
    abi_decode_uint32s 4 profileA = Ok [income; assets; riskScore; goals] /\
    compute income assets riskScore goals = Ok (p, m) /\
    [RecommendationGenerated 1] = [RecommendationGenerated (0 + 1)] /\
    getEncryptedRecommendation
      (fst (demo_run (fst (demo_run initial (generated_with profileA)))
              after_generation)) (0 + 1)
    = (demo_asEuint32 p, demo_asEuint32 m, 1, 102).
Proof.
  assert (H : generateRecommendation demo_checkSignatures demo_asEuint32 102
                (fst (demo_run initial (firstn 2 (generated_with profileA))))
                7 profileA good_proof
              = Ok (fst (demo_run initial (generated_with profileA)),
                    [RecommendationGenerated 1])) by by_eval.
  exact (generated_recommendation_is_kept demo_checkSignatures demo_asEuint32
           102 _ 7 profileA good_proof _ _ after_generation H).
Defined.

Lemma revealed_result_is_final_witness :
  exists p m,
    abi_decode_uint32s 2 resultA = Ok [p; m] /\
    getDecryptedResult
      (fst (demo_run (fst (demo_run initial revealed_once))
              (skipn 3 after_generation))) 1
    = (p, m, true).
Proof.
  assert (H0 : 1 <= mread 0 (recommendationRequestToId
                 (fst (demo_run initial reveal_requested))) 8
               <= recommendationCount
                    (fst (demo_run initial reveal_requested)))
    by (split; by_eval).
  assert (H : decryptRecommendation demo_checkSignatures
                (fst (demo_run initial reveal_requested)) 8 resultA good_proof
              = Ok (fst (demo_run initial revealed_once), [ResultDecrypted 1]))
    by by_eval.
  exact (revealed_result_is_final demo_checkSignatures demo_asEuint32
           _ 8 resultA good_proof _ _ (skipn 3 after_generation) H0 H).
Defined.


Lemma recommendation_answers_a_request_witness :
  exists requestId,
    In (RecommendationRequested requestId (rec_profileId recommendation1))
       (snd (demo_run initial (generated_with profileA))).
Proof.
  assert (H : encryptedRecommendations
                (fst (demo_run initial (generated_with profileA))) !! 1
              = Some recommendation1) by by_eval.
  exact (recommendation_answers_a_request demo_checkSignatures demo_asEuint32
           (generated_with profileA) 1 recommendation1 H).
Defined.

Lemma unrevealed_result_matches_handles_witness :
  exists r d,
    encryptedRecommendations
      (fst (demo_run initial (generated_with profileA))) !! 1 = Some r /\
    decryptedResults
      (fst (demo_run initial (generated_with profileA))) !! 1 = Some d /\
    encryptedProductId r = demo_asEuint32 (productId d) /\
    encryptedMatchScore r = demo_asEuint32 (matchScore d) /\
    1 <= productId d <= 3 /\ 0 <= matchScore d <= 100.
Proof.
  assert (H1 : 1 <= 1 <= recommendationCount
                 (fst (demo_run initial (generated_with profileA))))
    by (split; by_eval).
  assert (H2 : revealed (fst (demo_run initial (generated_with profileA))) 1
               = false) by by_eval.
  exact (unrevealed_result_matches_handles demo_checkSignatures demo_asEuint32
           (generated_with profileA) 1 H1 H2).
Defined.

(** Requests 8 and 9 are pending for recommendations 1 and 2. *)
Lemma reveal_callbacks_commute_witness :
  let st := fst (demo_run initial two_reveals_requested) in
  mread 0 (recommendationRequestToId st) 8
  <> mread 0 (recommendationRequestToId st) 9 /\
  fst (demo_run st [(106, DecryptRecommendation 8 resultA good_proof);
                    (107, DecryptRecommendation 9 resultA bad_proof)])
  = fst (demo_run st [(107, DecryptRecommendation 9 resultA bad_proof);
                      (106, DecryptRecommendation 8 resultA good_proof)]).
Proof.
  cbn zeta.
  assert (H : mread 0 (recommendationRequestToId
                (fst (demo_run initial two_reveals_requested))) 8
              <> mread 0 (recommendationRequestToId
                   (fst (demo_run initial two_reveals_requested))) 9)
    by by_eval.
  split; [exact H |].
  exact (reveal_callbacks_commute demo_checkSignatures demo_asEuint32 _
           106 8 resultA good_proof 107 9 resultA bad_proof H).
Defined.

(** The workflow on the freshly deployed contract, for the first scenario
    of the specification. *)
Lemma workflow_end_to_end_witness :
  getDecryptedResult
    (fst (demo_run initial
       [(100, SubmitEncryptedProfile 11 12 13 14);
        (101, RequestFinancialRecommendation (0 + 1) 7);
        (102, GenerateRecommendation 7
                (abi_encode [50000; 600000; 80; 1]) good_proof);
        (103, RequestRecommendationDecryption (0 + 1) 8);
        (104, DecryptRecommendation 8
                (abi_encode [spec_productId 50000 600000 80 1;
                             spec_matchScore 50000 600000 80 1])
                good_proof)])) (0 + 1)
  = (spec_productId 50000 600000 80 1, spec_matchScore 50000 600000 80 1,
     true).
Proof.
  refine (proj1 (proj2 (workflow_end_to_end demo_checkSignatures
            demo_asEuint32 initial 100 101 102 103 104 11 12 13 14
            50000 600000 80 1 7 8 good_proof good_proof
            _ _ _ _ _ _ _ _ _)));
    try (unfold is_uint32, MAX_UINT32, MAX_UINT256; cbn; lia); by_eval.
Defined.

Lemma pages_partition_products_witness :
  let products := seq 1 8 in
  (1 <= 2)%nat /\
  Dashboard.totalPages products = 2%nat /\
  Dashboard.paginatedProducts products 2 = [7; 8]%nat /\
  concat (map (Dashboard.paginatedProducts products)
            (seq 1 (Dashboard.totalPages products)))
  = products.
Proof.
  cbn zeta.
  assert (H : (1 <= 2)%nat) by lia.
  split; [exact H |]. split; [reflexivity |]. split; [reflexivity |].
  exact (proj1 (DashboardFacts.pages_partition_products (seq 1 8) 2 H)).
Defined.

Lemma status_counts_partition_witness :
  (Dashboard.approvedCount string id demo_statuses
   + Dashboard.pendingCount string id demo_statuses
   + Dashboard.rejectedCount string id demo_statuses = 2)%nat /\
  ~ Forall (Dashboard.known_status string id) demo_statuses.
Proof.
  split; [reflexivity |].
  intros H.
  apply (proj2 (DashboardFacts.status_counts_partition string id
                  demo_statuses)) in H.
  vm_compute in H. discriminate H.
Defined.

(** One profile callback rejected for its proof between two accepted ones:
    two accepted calls are counted and two ids assigned. *)
Example accepted_profile_callbacks_counted :
  let txs := generated_with profileA ++
             [(103, GenerateRecommendation 7 profileB bad_proof);
              (104, GenerateRecommendation 7 profileB good_proof)] in
  count_accepted is_profile_callback demo_checkSignatures demo_asEuint32
    initial txs = 2%nat /\
  count_accepted is_submission demo_checkSignatures demo_asEuint32
    initial txs = 1%nat /\
  generatedIds (snd (demo_run initial txs)) = [1; 2] /\
  submittedIds (snd (demo_run initial txs)) = [1].
Proof. repeat split; by_eval. Qed.
